(** * pexels-go: request pipeline, parameter encoder and endpoint bindings

    A shallow embedding of the Go client for the Pexels API
    (photos.go, client.go, collections.go, videos.go) together with the
    pieces of the Go standard library the client leans on
    (fmt.Sprint on ints and strings, net/url's QueryEscape, QueryUnescape,
    Values.Set, Values.Encode and ParseQuery, strconv.Atoi). *)

From Stdlib Require Import ZArith Ascii String List DecimalString DecimalPos DecimalZ.
From stdpp Require Import gmap strings list fin_maps sorting.

Local Open Scope Z_scope.

(** ** Bytes and strings *)

(** A Go string is a sequence of bytes; [ascii] is an eight bit byte. *)
Definition byte_val (c : ascii) : N := N_of_ascii c.

Definition in_range (lo hi c : ascii) : bool :=
  (byte_val lo <=? byte_val c)%N && (byte_val c <=? byte_val hi)%N.

Definition byte_eqb (a b : ascii) : bool := Ascii.eqb a b.

(** strings.Contains: [substr] occurs somewhere in [s]. *)
Fixpoint Contains (s substr : string) : bool :=
  String.prefix substr s ||
  match s with
  | EmptyString => false
  | String _ s' => Contains s' substr
  end.

(** strings.IndexByte(s, c) >= 0: the byte [c] occurs in [s]. *)
Fixpoint has_byte (c : ascii) (s : string) : bool :=
  match s with
  | EmptyString => false
  | String a s' => byte_eqb a c || has_byte c s'
  end.

(** strings.Cut for a one byte separator: the text before the first
    separator, the text after it, and whether a separator was found. *)
Fixpoint Cut (s : string) (sep : ascii) : string * string * bool :=
  match s with
  | EmptyString => (EmptyString, EmptyString, false)
  | String c s' =>
      if byte_eqb c sep then (EmptyString, s', true)
      else let '(before, after, found) := Cut s' sep in
           (String c before, after, found)
  end.

(** ** fmt.Sprint and strconv.Atoi *)

(** Go's [int] is a 64 bit signed integer. *)
Definition int_min : Z := - 2 ^ 63.
Definition int_max : Z := 2 ^ 63 - 1.
Definition is_int (n : Z) : Prop := int_min <= n <= int_max.

(** Decimal rendering of an int: what %d, %v and fmt.Sprint print. *)
Definition FormatInt (n : Z) : string := NilZero.string_of_int (Z.to_int n).

(** strconv.Atoi: an optional sign, then decimal digits; a value outside
    the int range is an error ([None]). *)
Definition Atoi (s : string) : option Z :=
  let parsed :=
    match s with
    | String "+" s' => option_map Decimal.Pos (NilZero.uint_of_string s')
    | _ => NilZero.int_of_string s
    end in
  match parsed with
  | Some d =>
      let n := Z.of_int d in
      if (int_min <=? n) && (n <=? int_max) then Some n else None
  | None => None
  end.

(** ** net/url: escaping *)

(** shouldEscape in mode encodeQueryComponent: letters, digits and
    [-_.~] stay, every other byte is escaped (the reserved bytes
    [$&+,/:;=?@] are escaped in this mode too). *)
Definition shouldEscape (c : ascii) : bool :=
  if in_range "a" "z" c || in_range "A" "Z" c || in_range "0" "9" c then false
  else if byte_eqb c "-" || byte_eqb c "_" || byte_eqb c "." || byte_eqb c "~"
       then false
  else true.

Definition upperhex : string := "0123456789ABCDEF".

Definition hexdigit (n : N) : ascii :=
  match String.get (N.to_nat n) upperhex with
  | Some c => c
  | None => "0"%char
  end.

(** url.QueryEscape. *)
Fixpoint QueryEscape (s : string) : string :=
  match s with
  | EmptyString => EmptyString
  | String c s' =>
      if shouldEscape c then
        if byte_eqb c " " then String "+" (QueryEscape s')
        else String "%" (String (hexdigit (N.shiftr (byte_val c) 4))
                        (String (hexdigit (N.land (byte_val c) 15))
                                (QueryEscape s')))
      else String c (QueryEscape s')
  end.

Definition ishex (c : ascii) : bool :=
  in_range "0" "9" c || in_range "a" "f" c || in_range "A" "F" c.

Definition unhex (c : ascii) : N :=
  if in_range "0" "9" c then (byte_val c - byte_val "0")%N
  else if in_range "a" "f" c then (byte_val c - byte_val "a" + 10)%N
  else if in_range "A" "F" c then (byte_val c - byte_val "A" + 10)%N
  else 0%N.

(** The errors of net/url: a malformed escape (with the offending bytes)
    and a semicolon used as separator. *)
Inductive url_error : Type :=
| EscapeError (fragment : string)
| SemicolonError.

(** The at most three bytes net/url quotes in an EscapeError. *)
Definition escape_fragment (s : string) : string := String.substring 0 3 s.

(** url.QueryUnescape: [%XX] becomes the byte XX, [+] becomes a space;
    a [%] not followed by two hex digits is an EscapeError. *)
Fixpoint QueryUnescape (s : string) : url_error + string :=
  match s with
  | EmptyString => inr EmptyString
  | String c s' =>
      if byte_eqb c "%" then
        match s' with
        | String h (String l rest) =>
            if ishex h && ishex l then
              match QueryUnescape rest with
              | inr t =>
                  inr (String (ascii_of_N (N.lor (N.shiftl (unhex h) 4) (unhex l))) t)
              | inl e => inl e
              end
            else inl (EscapeError (escape_fragment s))
        | _ => inl (EscapeError (escape_fragment s))
        end
      else
        match QueryUnescape s' with
        | inr t => inr (String (if byte_eqb c "+" then " "%char else c) t)
        | inl e => inl e
        end
  end.

(** ** net/url: Values *)

(** url.Values is a [map[string][]string]. *)
Abbreviation Values := (gmap string (list string)).

(** Values.Set replaces whatever the key held by the single value. *)
Definition Values_Set (v : Values) (key value : string) : Values :=
  <[key := [value]]> v.

(** Values.Get: the first value of the key, or the empty string. *)
Definition Values_Get (v : Values) (key : string) : string :=
  match v !! key with
  | Some (x :: _) => x
  | _ => EmptyString
  end.

(** The keys in the order Values.Encode visits them: sorted bytewise. *)
Definition sorted_keys (v : Values) : list string :=
  merge_sort String.le (map fst (map_to_list v)).

Definition encode_pair (k x : string) : string :=
  QueryEscape k +:+ "=" +:+ QueryEscape x.

(** The [key=value] segments Values.Encode writes, in order. *)
Definition encode_pairs (v : Values) : list string :=
  flat_map (fun k => map (encode_pair k) (default [] (v !! k))) (sorted_keys v).

(** Values.Encode: the segments joined by [&] (the builder writes [&]
    before every segment but the first). *)
Definition Values_Encode (v : Values) : string :=
  String.concat "&" (encode_pairs v).

(** strings.Split for a one byte separator. *)
Fixpoint Split (s : string) (sep : ascii) : list string :=
  match s with
  | EmptyString => [EmptyString]
  | String c s' =>
      if byte_eqb c sep then EmptyString :: Split s' sep
      else match Split s' sep with
           | seg :: segs => String c seg :: segs
           | [] => [String c EmptyString]
           end
  end.

Definition first_error (err : option url_error) (err1 : url_error)
  : option url_error :=
  match err with
  | Some e => Some e
  | None => Some err1
  end.

(** One turn of the loop of url.parseQuery on the segment [seg]. *)
Definition parseQuery_step (st : Values * option url_error) (seg : string)
  : Values * option url_error :=
  let '(m, err) := st in
  if Contains seg ";" then
    (m, Some SemicolonError)
  else if String.eqb seg "" then (m, err)
  else
    let '(key, value, _) := Cut seg "=" in
    match QueryUnescape key with
    | inl err1 => (m, first_error err err1)
    | inr key =>
        match QueryUnescape value with
        | inl err1 => (m, first_error err err1)
        | inr value => (<[key := default [] (m !! key) ++ [value]]> m, err)
        end
    end.

(** url.ParseQuery.  The loop cuts the query at each [&]; it visits the
    segments of [Split query "&"] (an empty segment is skipped, so the
    empty query and a trailing [&] add nothing). *)
Definition ParseQuery (query : string) : Values * option url_error :=
  fold_left parseQuery_step (Split query "&") (∅, None).

(** ** reflect: the fields of a parameter struct *)

Inductive Kind : Type := reflect_Int | reflect_String | reflect_Bool.

Global Instance Kind_eq_dec : EqDecision Kind.
Proof. solve_decision. Defined.

(** The value a struct field holds. *)
Inductive Value : Type :=
| IntValue (n : Z)
| StringValue (s : string)
| BoolValue (b : bool).

Definition Value_Kind (v : Value) : Kind :=
  match v with
  | IntValue _ => reflect_Int
  | StringValue _ => reflect_String
  | BoolValue _ => reflect_Bool
  end.

(** fmt.Sprint of a field's value. *)
Definition Sprint (v : Value) : string :=
  match v with
  | IntValue n => FormatInt n
  | StringValue s => s
  | BoolValue b => if b then "true" else "false"
  end.

(** A struct field as reflection shows it: its name, the value of the
    [url] key of its tag (empty when the tag has none) and its value. *)
Record StructField : Type := mkField {
  Name : string;
  Tag_url : string;
  Interface : Value
}.

(** The types structToURLValues can walk: [Fields s] lists the fields of
    [s] in declaration order ([v.Field(i)] for [i] below [v.NumField()]). *)
Class Struct (T : Type) : Type := Fields : T -> list StructField.

(** ** The parameter records *)

Module GetPhotosParams.
Record t : Type := mk {
    Query : string; Orientation : string; Size : string; Color : string;
    Locale : string; Page : Z; PerPage : Z }.
Definition set_Page (n : Z) (p : t) : t :=
    mk (Query p) (Orientation p) (Size p) (Color p) (Locale p) n (PerPage p).
Definition set_PerPage (n : Z) (p : t) : t :=
    mk (Query p) (Orientation p) (Size p) (Color p) (Locale p) (Page p) n.
End GetPhotosParams.

Module GetCuratedPhotoParams.
Record t : Type := mk { Page : Z; PerPage : Z }.
Definition set_Page (n : Z) (p : t) : t := mk n (PerPage p).
Definition set_PerPage (n : Z) (p : t) : t := mk (Page p) n.
End GetCuratedPhotoParams.

Module GetFeaturedCollectionParams.
Record t : Type := mk { Page : Z; PerPage : Z }.
Definition set_Page (n : Z) (p : t) : t := mk n (PerPage p).
Definition set_PerPage (n : Z) (p : t) : t := mk (Page p) n.
End GetFeaturedCollectionParams.

Module GetCollectionMediaParams.
Record t : Type := mk { Type_ : string; Sort : string; Page : Z; PerPage : Z }.
Definition set_Page (n : Z) (p : t) : t := mk (Type_ p) (Sort p) n (PerPage p).
Definition set_PerPage (n : Z) (p : t) : t := mk (Type_ p) (Sort p) (Page p) n.
End GetCollectionMediaParams.

Module GetVideosParams.
Record t : Type := mk {
    Query : string; Orientation : string; Size : string; Locale : string;
    Page : Z; PerPage : Z }.
Definition set_Page (n : Z) (p : t) : t :=
    mk (Query p) (Orientation p) (Size p) (Locale p) n (PerPage p).
Definition set_PerPage (n : Z) (p : t) : t :=
    mk (Query p) (Orientation p) (Size p) (Locale p) (Page p) n.
End GetVideosParams.

Module GetPopularVideosParams.
Record t : Type := mk {
    MinWidth : Z; MinHeight : Z; MinDuration : Z; MaxDuration : Z;
    Page : Z; PerPage : Z }.
Definition set_Page (n : Z) (p : t) : t :=
    mk (MinWidth p) (MinHeight p) (MinDuration p) (MaxDuration p) n (PerPage p).
Definition set_PerPage (n : Z) (p : t) : t :=
    mk (MinWidth p) (MinHeight p) (MinDuration p) (MaxDuration p) (Page p) n.
End GetPopularVideosParams.

Definition str (name tag : string) (s : string) : StructField :=
  mkField name tag (StringValue s).
Definition int (name tag : string) (n : Z) : StructField :=
  mkField name tag (IntValue n).

Global Instance GetPhotosParams_Struct : Struct GetPhotosParams.t := fun p =>
  [ str "Query" "query" (GetPhotosParams.Query p);
    str "Orientation" "orientation" (GetPhotosParams.Orientation p);
    str "Size" "size" (GetPhotosParams.Size p);
    str "Color" "color" (GetPhotosParams.Color p);
    str "Locale" "locale" (GetPhotosParams.Locale p);
    int "Page" "page" (GetPhotosParams.Page p);
    int "PerPage" "per_page" (GetPhotosParams.PerPage p) ].

Global Instance GetCuratedPhotoParams_Struct : Struct GetCuratedPhotoParams.t := fun p =>
  [ int "Page" "page" (GetCuratedPhotoParams.Page p);
    int "PerPage" "per_page" (GetCuratedPhotoParams.PerPage p) ].

Global Instance GetFeaturedCollectionParams_Struct
  : Struct GetFeaturedCollectionParams.t := fun p =>
  [ int "Page" "page" (GetFeaturedCollectionParams.Page p);
    int "PerPage" "per_page" (GetFeaturedCollectionParams.PerPage p) ].

Global Instance GetCollectionMediaParams_Struct
  : Struct GetCollectionMediaParams.t := fun p =>
  [ str "Type" "type" (GetCollectionMediaParams.Type_ p);
    str "Sort" "sort" (GetCollectionMediaParams.Sort p);
    int "Page" "page" (GetCollectionMediaParams.Page p);
    int "PerPage" "per_page" (GetCollectionMediaParams.PerPage p) ].

Global Instance GetVideosParams_Struct : Struct GetVideosParams.t := fun p =>
  [ str "Query" "query" (GetVideosParams.Query p);
    str "Orientation" "orientation" (GetVideosParams.Orientation p);
    str "Size" "size" (GetVideosParams.Size p);
    str "Locale" "locale" (GetVideosParams.Locale p);
    int "Page" "page" (GetVideosParams.Page p);
    int "PerPage" "per_page" (GetVideosParams.PerPage p) ].

Global Instance GetPopularVideosParams_Struct
  : Struct GetPopularVideosParams.t := fun p =>
  [ int "MinWidth" "min_width" (GetPopularVideosParams.MinWidth p);
    int "MinHeight" "min_height" (GetPopularVideosParams.MinHeight p);
    int "MinDuration" "min_duration" (GetPopularVideosParams.MinDuration p);
    int "MaxDuration" "max_duration" (GetPopularVideosParams.MaxDuration p);
    int "Page" "page" (GetPopularVideosParams.Page p);
    int "PerPage" "per_page" (GetPopularVideosParams.PerPage p) ].

(** The parameter records of the package, as one type: what the bindings
    hand to structToURLValues. *)
Inductive Params : Type :=
| PhotosParams (p : GetPhotosParams.t)
| CuratedPhotoParams (p : GetCuratedPhotoParams.t)
| FeaturedCollectionParams (p : GetFeaturedCollectionParams.t)
| CollectionMediaParams (p : GetCollectionMediaParams.t)
| VideosParams (p : GetVideosParams.t)
| PopularVideosParams (p : GetPopularVideosParams.t).

Global Instance Params_Struct : Struct Params := fun p =>
  match p with
  | PhotosParams q => Fields q
  | CuratedPhotoParams q => Fields q
  | FeaturedCollectionParams q => Fields q
  | CollectionMediaParams q => Fields q
  | VideosParams q => Fields q
  | PopularVideosParams q => Fields q
  end.

(** The zero value of a field's type. *)
Definition is_zero_value (v : Value) : bool :=
  match v with
  | IntValue n => n =? 0
  | StringValue s => String.eqb s ""
  | BoolValue b => negb b
  end.

(** ** client.go: structToURLValues *)

(** The body of the loop of structToURLValues for one field. *)
Definition structToURLValues_field (val : Values) (field : StructField) : Values :=
  let urlTag := Tag_url field in
  let fieldValue := Sprint (Interface field) in
  let fieldKind := Value_Kind (Interface field) in
  if negb (String.eqb urlTag "") &&
     ((bool_decide (fieldKind = reflect_Int) && negb (String.eqb fieldValue "0")) ||
      (bool_decide (fieldKind = reflect_String) && negb (String.eqb fieldValue "")))
  then Values_Set val urlTag fieldValue
  else val.

Definition structToURLValues {T : Type} `{Struct T} (s : T) : Values :=
  fold_left structToURLValues_field (Fields s) ∅.

Global Arguments structToURLValues : simpl never.
Global Arguments Values_Encode : simpl never.

(** ** Notions used to state the encoder's properties *)

(** The bytes the query syntax gives a meaning to. *)
Definition separator (c : ascii) : Prop :=
  c = "&"%char \/ c = "="%char \/ c = ";"%char.

(** The condition under which the loop of structToURLValues writes a
    field, on the field's value rather than on its printed form. *)
Definition written (f : StructField) : bool :=
  negb (String.eqb (Tag_url f) "") &&
  match Interface f with
  | IntValue n => negb (n =? 0)
  | StringValue s => negb (String.eqb s "")
  | BoolValue _ => false
  end.

(** Every key holds exactly one value. *)
Definition single_valued (m : Values) : Prop :=
  forall k vs, m !! k = Some vs -> exists x, vs = [x].

(** ** net/http and the client *)

(** Go errors.  [errorString] is what fmt.Errorf builds from a message;
    [foreignError] stands for the errors of net/http, io and
    encoding/json, which the client only passes on. *)
Inductive error : Type :=
| errorString (msg : string)
| foreignError (origin msg : string).

(** The Error() method. *)
Definition Error (e : error) : string :=
  match e with
  | errorString msg => msg
  | foreignError _ msg => msg
  end.

(** The shapes a response body is decoded into. *)
Inductive ResponseType : Type :=
| GetPhotoResponse | Photo | GetCollectionsResponse | CollectionMedia
| Video | GetVideosResponse.

(** A response body is a reader: the bytes it delivers, then either the
    end of the stream or a read error. *)
Record ReadCloser : Type := mkBody {
  delivered : string;
  read_error : option error
}.

Record Response : Type := mkResponse {
  StatusCode : Z;
  Body : ReadCloser
}.

Definition StatusOK : Z := 200.
Definition StatusBadRequest : Z := 400.

(** io.ReadAll. *)
Definition io_ReadAll (r : ReadCloser) : error + string :=
  match read_error r with
  | Some e => inl e
  | None => inr (delivered r)
  end.

(** What the client takes from outside the package: context.Context and
    context.Background(); the Go value of each response shape and
    encoding/json's decoder reading one such value from a body; and the
    error, if any, net/url finds when http.NewRequest parses the target. *)
Class Env : Type := {
  context_Context : Type;
  context_Background : context_Context;
  value_of : ResponseType -> Type;
  json_Decode : forall T : ResponseType, ReadCloser -> error + value_of T;
  url_Parse_error : string -> option error
}.

Section Pexels.

Context {env : Env}.

Record Request : Type := mkRequest {
  Method : string;
  URL : string;
  Header : gmap string (list string);
  Ctx : context_Context
}.

(** http.Header.Set; the three keys the client uses ("Accept",
    "Content-Type", "Authorization") are in canonical form already. *)
Definition Header_Set (req : Request) (key value : string) : Request :=
  mkRequest (Method req) (URL req) (<[key := [value]]> (Header req)) (Ctx req).

Definition WithContext (req : Request) (ctx : context_Context) : Request :=
  mkRequest (Method req) (URL req) (Header req) ctx.

(** The transport: what [HTTPClient.Do] answers to a request. *)
Record http_Client : Type := mkHTTP {
  Do : Request -> error + Response
}.

Record Client : Type := mkClient {
  BaseURL : string;
  ApiKey : string;
  HTTPClient : http_Client;
  Version : string
}.

(** What a call does to the outside: requests built, requests sent. *)
Inductive Event : Type :=
| NewRequest_call (method url : string)
| Do_call (req : Request).

(** The state a binding runs in: the record its [params] pointer points
    to and the events so far. *)
Record World (P : Type) : Type := mkWorld {
  pointee : P;
  trace : list Event
}.
Arguments mkWorld {P} _ _.
Arguments pointee {P} _.
Arguments trace {P} _.

(** A computation that may fail with a Go error. *)
Definition M (P A : Type) : Type := World P -> (error + A) * World P.

Definition ret {P A} (a : A) : M P A := fun w => (inr a, w).
Definition throw {P A} (e : error) : M P A := fun w => (inl e, w).
Definition bind {P A B} (m : M P A) (k : A -> M P B) : M P B :=
  fun w => match m w with
           | (inr a, w') => k a w'
           | (inl e, w') => (inl e, w')
           end.
Definition load {P} : M P P := fun w => (inr (pointee w), w).
Definition store {P} (p : P) : M P unit := fun w => (inr tt, mkWorld p (trace w)).
Definition emit {P} (ev : Event) : M P unit :=
  fun w => (inr tt, mkWorld (pointee w) (trace w ++ [ev])).
Definition lift {P A} (r : error + A) : M P A := fun w => (r, w).

Global Instance M_ret {P} : MRet (M P) := fun A => @ret P A.
Global Instance M_bind {P} : MBind (M P) := fun A B k m => @bind P A B m k.

(** http.NewRequest with a nil body. *)
Definition http_NewRequest {P} (method url : string) : M P Request :=
  emit (NewRequest_call method url);;
  match url_Parse_error url with
  | Some e => throw e
  | None => ret (mkRequest method url ∅ context_Background)
  end.

Definition HTTPClient_Do {P} (c : Client) (req : Request) : M P Response :=
  emit (Do_call req);; lift (Do (HTTPClient c) req).

(** client.go: sendRequest.  The decoded value stands for what the call
    leaves in [vals] when it returns a nil error; the deferred
    [res.Body.Close()] has no effect on what the call returns. *)
Definition sendRequest {P} (c : Client) (ctx : context_Context) (req : Request)
           (T : ResponseType) : M P (value_of T) :=
  res ← HTTPClient_Do c req;
  if (StatusCode res <? StatusOK) || (StatusCode res >=? StatusBadRequest) then
    bytes ← lift (io_ReadAll (Body res));
    throw (errorString ("Unknown API error: " +:+ FormatInt (StatusCode res)
                          +:+ " " +:+ bytes))
  else
    lift (json_Decode T (Body res)).

(** photos.go *)

Definition GetPhotos (c : Client) (ctx : context_Context)
  : M GetPhotosParams.t (value_of GetPhotoResponse) :=
  params ← load;
  (if GetPhotosParams.Page params =? 0
   then store (GetPhotosParams.set_Page 1 params) else ret tt);;
  params ← load;
  (if GetPhotosParams.PerPage params =? 0
   then store (GetPhotosParams.set_PerPage 5 params) else ret tt);;
  params ← load;
  if String.eqb (GetPhotosParams.Query params) "" then
    throw (errorString "Query field cannot be empty.")
  else
    let url := BaseURL c +:+ Version c +:+ "/search?"
               +:+ Values_Encode (structToURLValues params) in
    req ← http_NewRequest "GET" url;
    let req := WithContext req ctx in
    let req := Header_Set req "Accept" "application/json" in
    let req := Header_Set req "Authorization" (ApiKey c) in
    sendRequest c ctx req GetPhotoResponse.

Definition GetCurated (c : Client) (ctx : context_Context)
  : M GetCuratedPhotoParams.t (value_of GetPhotoResponse) :=
  params ← load;
  (if GetCuratedPhotoParams.Page params =? 0
   then store (GetCuratedPhotoParams.set_Page 1 params) else ret tt);;
  params ← load;
  (if GetCuratedPhotoParams.PerPage params =? 0
   then store (GetCuratedPhotoParams.set_PerPage 5 params) else ret tt);;
  params ← load;
  let url := BaseURL c +:+ Version c +:+ "/curated?"
             +:+ Values_Encode (structToURLValues params) in
  req ← http_NewRequest "GET" url;
  let req := WithContext req ctx in
  let req := Header_Set req "Accept" "application/json" in
  let req := Header_Set req "Content-Type" "application/json" in
  let req := Header_Set req "Authorization" (ApiKey c) in
  sendRequest c ctx req GetPhotoResponse.

Definition GetPhoto (c : Client) (ctx : context_Context) (id : string)
  : M unit (value_of Photo) :=
  let url := BaseURL c +:+ Version c +:+ "/photos/" +:+ id in
  req ← http_NewRequest "GET" url;
  let req := WithContext req ctx in
  let req := Header_Set req "Accept" "application/json" in
  let req := Header_Set req "Content-Type" "application/json" in
  let req := Header_Set req "Authorization" (ApiKey c) in
  sendRequest c ctx req Photo.

(** collections.go *)

Definition getCollections (c : Client) (ctx : context_Context) (own : bool)
  : M GetFeaturedCollectionParams.t (value_of GetCollectionsResponse) :=
  params ← load;
  (if GetFeaturedCollectionParams.Page params =? 0
   then store (GetFeaturedCollectionParams.set_Page 1 params) else ret tt);;
  params ← load;
  (if GetFeaturedCollectionParams.PerPage params =? 0
   then store (GetFeaturedCollectionParams.set_PerPage 5 params) else ret tt);;
  params ← load;
  let url := BaseURL c +:+ Version c +:+ "/collections/featured?"
             +:+ Values_Encode (structToURLValues params) in
  let url := if own
             then BaseURL c +:+ Version c +:+ "/collections?"
                  +:+ Values_Encode (structToURLValues params)
             else url in
  req ← http_NewRequest "GET" url;
  let req := WithContext req ctx in
  let req := Header_Set req "Accept" "application/json" in
  let req := Header_Set req "Content-Type" "application/json" in
  let req := Header_Set req "Authorization" (ApiKey c) in
  sendRequest c ctx req GetCollectionsResponse.

Definition GetCollection (c : Client) (ctx : context_Context) (id : string)
  : M GetCollectionMediaParams.t (value_of CollectionMedia) :=
  params ← load;
  (if GetCollectionMediaParams.Page params =? 0
   then store (GetCollectionMediaParams.set_Page 1 params) else ret tt);;
  params ← load;
  (if GetCollectionMediaParams.PerPage params =? 0
   then store (GetCollectionMediaParams.set_PerPage 5 params) else ret tt);;
  params ← load;
  let url := BaseURL c +:+ Version c +:+ "/collections/" +:+ id +:+ "?"
             +:+ Values_Encode (structToURLValues params) in
  req ← http_NewRequest "GET" url;
  let req := WithContext req ctx in
  let req := Header_Set req "Accept" "application/json" in
  let req := Header_Set req "Content-Type" "application/json" in
  let req := Header_Set req "Authorization" (ApiKey c) in
  sendRequest c ctx req CollectionMedia.

Definition GetFeaturedCollections (c : Client) (ctx : context_Context)
  : M GetFeaturedCollectionParams.t (value_of GetCollectionsResponse) :=
  getCollections c ctx false.

Definition GetUserCollections (c : Client) (ctx : context_Context)
  : M GetFeaturedCollectionParams.t (value_of GetCollectionsResponse) :=
  getCollections c ctx true.

(** videos.go *)

Definition GetVideo (c : Client) (ctx : context_Context) (id : string)
  : M unit (value_of Video) :=
  let url := BaseURL c +:+ "/videos/videos/" +:+ id in
  req ← http_NewRequest "GET" url;
  let req := WithContext req ctx in
  let req := Header_Set req "Accept" "application/json" in
  let req := Header_Set req "Content-Type" "application/json" in
  let req := Header_Set req "Authorization" (ApiKey c) in
  sendRequest c ctx req Video.

Definition GetPopularVideos (c : Client) (ctx : context_Context)
  : M GetPopularVideosParams.t (value_of GetVideosResponse) :=
  params ← load;
  (if GetPopularVideosParams.Page params =? 0
   then store (GetPopularVideosParams.set_Page 1 params) else ret tt);;
  params ← load;
  (if GetPopularVideosParams.PerPage params =? 0
   then store (GetPopularVideosParams.set_PerPage 2 params) else ret tt);;
  params ← load;
  let url := BaseURL c +:+ "videos/popular?"
             +:+ Values_Encode (structToURLValues params) in
  req ← http_NewRequest "GET" url;
  let req := WithContext req ctx in
  let req := Header_Set req "Accept" "application/json" in
  let req := Header_Set req "Content-Type" "application/json" in
  let req := Header_Set req "Authorization" (ApiKey c) in
  sendRequest c ctx req GetVideosResponse.

Definition GetVideos (c : Client) (ctx : context_Context)
  : M GetVideosParams.t (value_of GetVideosResponse) :=
  params ← load;
  (if GetVideosParams.Page params =? 0
   then store (GetVideosParams.set_Page 1 params) else ret tt);;
  params ← load;
  (if GetVideosParams.PerPage params =? 0
   then store (GetVideosParams.set_PerPage 5 params) else ret tt);;
  params ← load;
  if String.eqb (GetVideosParams.Query params) "" then
    throw (errorString "Query field cannot be empty.")
  else
    let url := BaseURL c +:+ "/videos/search?"
               +:+ Values_Encode (structToURLValues params) in
    req ← http_NewRequest "GET" url;
    let req := WithContext req ctx in
    let req := Header_Set req "Accept" "application/json" in
    let req := Header_Set req "Authorization" (ApiKey c) in
    sendRequest c ctx req GetVideosResponse.

(** ** Observing a call *)

(** A call on the record [p], starting from an empty event log. *)
Definition run {P A : Type} (m : M P A) (p : P) : (error + A) * World P :=
  m (mkWorld p []).

(** The target URLs handed to http.NewRequest, in order. *)
Definition built_urls (tr : list Event) : list string :=
  flat_map (fun ev => match ev with
                      | NewRequest_call _ url => [url]
                      | Do_call _ => []
                      end) tr.

(** The requests handed to the transport, in order. *)
Definition sent_requests (tr : list Event) : list Request :=
  flat_map (fun ev => match ev with
                      | NewRequest_call _ _ => []
                      | Do_call req => [req]
                      end) tr.

(** A pagination field after defaulting. *)
Definition or_default (d n : Z) : Z := if n =? 0 then d else n.

(** The header lines of an outgoing request. *)
Definition headers (c : Client) (content_type : bool) : gmap string (list string) :=
  <["Authorization" := [ApiKey c]]>
    ((if content_type
      then <["Content-Type" := ["application/json"]]>
      else fun h => h)
       (<["Accept" := ["application/json"]]> ∅)).

Definition request_for (c : Client) (ctx : context_Context)
           (content_type : bool) (url : string) : Request :=
  mkRequest "GET" url (headers c content_type) ctx.

(** What sendRequest makes of the transport's answer. *)
Definition classify (T : ResponseType) (answer : error + Response)
  : error + value_of T :=
  match answer with
  | inl e => inl e
  | inr res =>
      if (StatusCode res <? 200) || (StatusCode res >=? 400) then
        match io_ReadAll (Body res) with
        | inl e => inl e
        | inr bytes =>
            inl (errorString ("Unknown API error: " +:+ FormatInt (StatusCode res)
                                +:+ " " +:+ bytes))
        end
      else json_Decode T (Body res)
  end.

(** The common tail of the bindings once the URL is fixed: build the
    request, set the headers, send. *)
Definition dispatched {P : Type} (c : Client) (ctx : context_Context)
           (content_type : bool) (url : string) (T : ResponseType)
           (w : World P) : (error + value_of T) * World P :=
  match url_Parse_error url with
  | Some e => (inl e, mkWorld (pointee w) (trace w ++ [NewRequest_call "GET" url]))
  | None =>
      let req := request_for c ctx content_type url in
      (classify T (Do (HTTPClient c) req),
       mkWorld (pointee w) (trace w ++ [NewRequest_call "GET" url; Do_call req]))
  end.

(** client.go: the package defaults and NewClient.  The transport stands
    for the network behind the http.Client NewClient allocates. *)
Definition pexels_BaseURL : string := "https://api.pexels.com/".
Definition pexels_Version : string := "v1".

Definition NewClient (transport : http_Client) (apiKey : string) : Client :=
  mkClient pexels_BaseURL apiKey transport pexels_Version.

(** The requests that follow from the URLs built: one per URL that
    net/url accepts, with the given header lines. *)
Definition requests_for (c : Client) (ctx : context_Context)
           (content_type : bool) (urls : list string) : list Request :=
  flat_map (fun url => match url_Parse_error url with
                       | Some _ => []
                       | None => [request_for c ctx content_type url]
                       end) urls.

(** The events [tr] show one URL built, [prefix] followed by an encoded
    query that has the segment [page=1] if [page] was 0 and the segment
    [per_page=d] if [per_page] was 0. *)
Definition encodes_defaults (tr : list Event) (prefix : string)
           (page per_page : Z) (d : string) : Prop :=
  exists v : Values,
    built_urls tr = [prefix +:+ Values_Encode v] /\
    (page = 0 ->
     In "page=1" (encode_pairs v) /\ Contains (Values_Encode v) "page=1" = true) /\
    (per_page = 0 ->
     In ("per_page=" +:+ d) (encode_pairs v) /\
     Contains (Values_Encode v) ("per_page=" +:+ d) = true).

(** The outcome of a call that returns no response: an error, which is
    the API error with message [msg] whenever a request went out. *)
Definition fails_with {P A : Type} (out : (error + A) * World P) (msg : string)
  : Prop :=
  exists e, fst out = inl e /\
            (sent_requests (trace (snd out)) <> [] -> e = errorString msg).

End Pexels.

Arguments mkWorld {env P} _ _.
Arguments pointee {env P} _.
Arguments trace {env P} _.

(** * Notions used to state further properties *)

(** The segment an optional string field contributes to the query. *)
Definition opt_str (key s : string) : list string :=
  if String.eqb s "" then [] else [key +:+ "=" +:+ QueryEscape s].

(** The segment an optional int field contributes to the query. *)
Definition opt_int (key : string) (n : Z) : list string :=
  if n =? 0 then [] else [key +:+ "=" +:+ FormatInt n].

(** Every byte of [s] passes the test [P]. *)
Fixpoint all_bytes (P : ascii -> bool) (s : string) : bool :=
  match s with
  | EmptyString => true
  | String c s' => P c && all_bytes P s'
  end.

(** The bytes an encoded query is made of: letters, digits, [-_.~], the
    escapes' [%] and [+], and the separators [=] and [&]. *)
Definition query_byte (c : ascii) : bool :=
  negb (shouldEscape c) || byte_eqb c "%" || byte_eqb c "+" ||
  byte_eqb c "=" || byte_eqb c "&".

(** The calls a user of the package can make, with their arguments. *)
Inductive Call : Type :=
| Call_GetPhotos (params : GetPhotosParams.t)
| Call_GetCurated (params : GetCuratedPhotoParams.t)
| Call_GetPhoto (id : string)
| Call_GetFeaturedCollections (params : GetFeaturedCollectionParams.t)
| Call_GetUserCollections (params : GetFeaturedCollectionParams.t)
| Call_GetCollection (params : GetCollectionMediaParams.t) (id : string)
| Call_GetVideo (id : string)
| Call_GetPopularVideos (params : GetPopularVideosParams.t)
| Call_GetVideos (params : GetVideosParams.t).

(** The shape each call decodes the answer into. *)
Definition Call_type (k : Call) : ResponseType :=
  match k with
  | Call_GetPhotos _ | Call_GetCurated _ => GetPhotoResponse
  | Call_GetPhoto _ => Photo
  | Call_GetFeaturedCollections _ | Call_GetUserCollections _ => GetCollectionsResponse
  | Call_GetCollection _ _ => CollectionMedia
  | Call_GetVideo _ => Video
  | Call_GetPopularVideos _ | Call_GetVideos _ => GetVideosResponse
  end.

Section Calls.

Context {env : Env}.

(** What the caller sees of a finished call: the returned pair and the
    events of the call. *)
Definition observe {P A : Type} (out : (error + A) * World P)
  : (error + A) * list Event :=
  (fst out, trace (snd out)).

(** The call [k] made on the client [c], from an empty event log. *)
Definition perform (c : Client) (ctx : context_Context) (k : Call)
  : (error + value_of (Call_type k)) * list Event :=
  match k as k0 return (error + value_of (Call_type k0)) * list Event with
  | Call_GetPhotos p => observe (run (GetPhotos c ctx) p)
  | Call_GetCurated p => observe (run (GetCurated c ctx) p)
  | Call_GetPhoto id => observe (run (GetPhoto c ctx id) tt)
  | Call_GetFeaturedCollections p => observe (run (GetFeaturedCollections c ctx) p)
  | Call_GetUserCollections p => observe (run (GetUserCollections c ctx) p)
  | Call_GetCollection p id => observe (run (GetCollection c ctx id) p)
  | Call_GetVideo id => observe (run (GetVideo c ctx id) tt)
  | Call_GetPopularVideos p => observe (run (GetPopularVideos c ctx) p)
  | Call_GetVideos p => observe (run (GetVideos c ctx) p)
  end.

(** The events [tr] show one URL built, [prefix] followed by an encoded
    query that has the segments [page=<page>] and [per_page=<per_page>]. *)
Definition encodes_pagination (tr : list Event) (prefix : string)
           (page per_page : Z) : Prop :=
  exists v : Values,
    built_urls tr = [prefix +:+ Values_Encode v] /\
    In ("page=" +:+ FormatInt page) (encode_pairs v) /\
    In ("per_page=" +:+ FormatInt per_page) (encode_pairs v).

End Calls.

(** * Facts *)

(** ** Sample runs of the standard library functions *)

Example QueryEscape_ex : QueryEscape "a b&c=d/é" = "a+b%26c%3Dd%2F%C3%A9".
Proof. reflexivity. Qed.

Example QueryUnescape_ex : QueryUnescape "a+b%26c%3Dd%2F%C3%A9" = inr "a b&c=d/é".
Proof. reflexivity. Qed.

Example FormatInt_ex : FormatInt 0 = "0" /\ FormatInt 15 = "15" /\ FormatInt (-7) = "-7".
Proof. repeat split. Qed.

Example encode_ex :
  Values_Encode (structToURLValues
    (GetPhotosParams.mk "nature" "landscape" "medium" "green" "en-US" 1 10))
  = "color=green&locale=en-US&orientation=landscape&page=1&per_page=10&query=nature&size=medium".
Proof. vm_compute. reflexivity. Qed.

Example parse_ex :
  ParseQuery "page=1&q=a+b&&q=%26" =
  (<["page" := ["1"]]> (<["q" := ["a b"; "&"]]> ∅), None).
Proof. vm_compute. reflexivity. Qed.

Ltac each_byte c := destruct c as [[] [] [] [] [] [] [] []].

(** ** Facts: strings and numbers *)

Lemma prefix_app (sub b : string) : String.prefix sub (sub +:+ b) = true.
Proof.
  induction sub as [|c sub IH]; simpl.
  - by destruct b.
  - destruct (ascii_dec c c); [done | congruence].
Qed.

Lemma Contains_unfold (s sub : string) :
  Contains s sub =
  String.prefix sub s ||
  match s with EmptyString => false | String _ s' => Contains s' sub end.
Proof. by destruct s. Qed.

Lemma Contains_skip (p r sub : string) :
  Contains r sub = true -> Contains (p +:+ r) sub = true.
Proof.
  intros H. induction p as [|c p IH]; simpl; [done|].
  rewrite IH. apply orb_true_r.
Qed.

Lemma Contains_app (a sub b : string) : Contains (a +:+ sub +:+ b) sub = true.
Proof.
  apply Contains_skip. rewrite Contains_unfold, prefix_app. done.
Qed.

Lemma append_cons (c : ascii) (s t : string) :
  String c s +:+ t = String c (s +:+ t).
Proof. reflexivity. Qed.

Lemma append_assoc (a b c : string) : (a +:+ b) +:+ c = a +:+ b +:+ c.
Proof. induction a as [|x a IH]; [done|]. by rewrite !append_cons, IH. Qed.

Lemma append_empty_r (s : string) : s +:+ EmptyString = s.
Proof. induction s as [|c s IH]; [done|]. by rewrite append_cons, IH. Qed.

Lemma Contains_self (s : string) : Contains s s = true.
Proof.
  rewrite <- (append_empty_r s) at 1. rewrite Contains_unfold, prefix_app. done.
Qed.

Lemma Contains_byte (s : string) (c : ascii) :
  Contains s (String c EmptyString) = has_byte c s.
Proof.
  induction s as [|a s IH]; simpl; [done|].
  rewrite IH. unfold byte_eqb.
  destruct (ascii_dec c a) as [->|Hne].
  - rewrite Ascii.eqb_refl. by destruct s.
  - assert (Ascii.eqb a c = false) as -> by (apply Ascii.eqb_neq; congruence).
    done.
Qed.

Lemma has_byte_app (c : ascii) (a b : string) :
  has_byte c (a +:+ b) = has_byte c a || has_byte c b.
Proof.
  induction a as [|x a IH]; simpl; [done|]. rewrite IH. apply orb_assoc.
Qed.

Lemma Cut_app (a b : string) (sep : ascii) :
  has_byte sep a = false -> Cut (a +:+ String sep b) sep = (a, b, true).
Proof.
  induction a as [|x a IH]; simpl; intros H.
  - unfold byte_eqb. by rewrite Ascii.eqb_refl.
  - apply orb_false_iff in H as [-> H]. by rewrite IH.
Qed.

Lemma Split_no_sep (s : string) (sep : ascii) :
  has_byte sep s = false -> Split s sep = [s].
Proof.
  induction s as [|x s IH]; simpl; intros H; [done|].
  apply orb_false_iff in H as [-> H]. by rewrite IH.
Qed.

Lemma Split_app (a b : string) (sep : ascii) :
  has_byte sep a = false ->
  Split (a +:+ String sep b) sep = a :: Split b sep.
Proof.
  induction a as [|x a IH]; simpl; intros H.
  - unfold byte_eqb. by rewrite Ascii.eqb_refl.
  - apply orb_false_iff in H as [-> H]. by rewrite IH.
Qed.

(** Cutting a joined list at the separator gives the list back. *)
Lemma Split_concat (segs : list string) (sep : ascii) :
  segs <> [] ->
  Forall (fun seg => has_byte sep seg = false) segs ->
  Split (String.concat (String sep EmptyString) segs) sep = segs.
Proof.
  induction segs as [|seg segs IH]; intros Hne Hall; [done|].
  inversion_clear Hall as [|? ? Hseg Hrest].
  destruct segs as [|seg' segs].
  - simpl. by apply Split_no_sep.
  - change (String.concat (String sep EmptyString) (seg :: seg' :: segs))
      with (seg +:+ String sep (String.concat (String sep EmptyString) (seg' :: segs))).
    rewrite Split_app by done. f_equal. by apply IH.
Qed.

Lemma In_concat_Contains (sep x : string) (l : list string) :
  In x l -> Contains (String.concat sep l) x = true.
Proof.
  induction l as [|y l IH]; intros Hin; [done|].
  destruct l as [|z l].
  - destruct Hin as [->|[]]. apply Contains_self.
  - change (String.concat sep (y :: z :: l))
      with (y +:+ sep +:+ String.concat sep (z :: l)).
    destruct Hin as [->|Hin].
    + apply (Contains_app EmptyString).
    + do 2 apply Contains_skip. by apply IH.
Qed.

(** ** Facts: escaping *)

Lemma QueryUnescape_QueryEscape_cons (c : ascii) (s : string) :
  QueryUnescape (QueryEscape (String c s)) =
  match QueryUnescape (QueryEscape s) with
  | inr t => inr (String c t)
  | inl e => inl e
  end.
Proof. each_byte c; reflexivity. Qed.

(** Unescaping undoes escaping, for every byte string. *)
Lemma QueryUnescape_QueryEscape (s : string) :
  QueryUnescape (QueryEscape s) = inr s.
Proof.
  induction s as [|c s IH]; [done|].
  by rewrite QueryUnescape_QueryEscape_cons, IH.
Qed.

Lemma QueryEscape_separator_cons (x c : ascii) (s : string) :
  separator x ->
  has_byte x (QueryEscape (String c s)) = has_byte x (QueryEscape s).
Proof. intros [->|[->| ->]]; each_byte c; reflexivity. Qed.

(** An escaped string holds no separator. *)
Lemma QueryEscape_no_separator (x : ascii) (s : string) :
  separator x -> has_byte x (QueryEscape s) = false.
Proof.
  intros Hx. induction s as [|c s IH]; [done|].
  by rewrite QueryEscape_separator_cons.
Qed.

Lemma encode_pair_no_separator (x : ascii) (k v : string) :
  x = "&"%char \/ x = ";"%char -> has_byte x (encode_pair k v) = false.
Proof.
  intros Hx. unfold encode_pair.
  rewrite !has_byte_app.
  destruct Hx as [-> | ->];
    rewrite !QueryEscape_no_separator by (unfold separator; auto);
    reflexivity.
Qed.

Lemma Cut_encode_pair (k v : string) :
  Cut (encode_pair k v) "=" = (QueryEscape k, QueryEscape v, true).
Proof.
  unfold encode_pair. apply Cut_app, QueryEscape_no_separator.
  right; left; reflexivity.
Qed.

(** ** Facts: decimal numbers *)

Lemma to_int_not_nil (n : Z) :
  Z.to_int n <> Decimal.Pos Decimal.Nil /\ Z.to_int n <> Decimal.Neg Decimal.Nil.
Proof.
  destruct n as [|p|p]; simpl; split; try discriminate;
    intros [= H]; by apply (DecimalPos.Unsigned.to_uint_nonnil p).
Qed.

Lemma int_of_string_FormatInt (n : Z) :
  NilZero.int_of_string (FormatInt n) = Some (Z.to_int n).
Proof. apply NilZero.isi; apply to_int_not_nil. Qed.

Lemma FormatInt_inj (n m : Z) : FormatInt n = FormatInt m -> n = m.
Proof.
  intros H. apply DecimalZ.to_int_inj.
  assert (Some (Z.to_int n) = Some (Z.to_int m)) as [= ->]; [|done].
  by rewrite <- !int_of_string_FormatInt, H.
Qed.

(** The test [fieldValue != "0"] of structToURLValues is a test on the
    integer itself. *)
Lemma FormatInt_zero (n : Z) : String.eqb (FormatInt n) "0" = (n =? 0).
Proof.
  destruct (Z.eqb_spec n 0) as [->|Hn]; [done|].
  apply String.eqb_neq. intros H. apply Hn. by apply FormatInt_inj.
Qed.

Lemma FormatInt_not_empty (n : Z) : FormatInt n <> EmptyString.
Proof.
  intros H. pose proof (int_of_string_FormatInt n) as Hn.
  by rewrite H in Hn.
Qed.

(** strconv.Atoi reads back what fmt.Sprint wrote. *)
Lemma Atoi_FormatInt (n : Z) : is_int n -> Atoi (FormatInt n) = Some n.
Proof.
  intros [Hlo Hhi]. pose proof (int_of_string_FormatInt n) as Hn.
  unfold Atoi.
  assert (match FormatInt n with
          | String "+" s' => option_map Decimal.Pos (NilZero.uint_of_string s')
          | _ => NilZero.int_of_string (FormatInt n)
          end = Some (Z.to_int n)) as ->.
  { destruct (FormatInt n) as [|a s'] eqn:E; [done|].
    destruct (ascii_dec a "+") as [->|Hne].
    - exfalso. revert Hn. unfold NilZero.int_of_string, NilZero.uint_of_string.
      simpl. by destruct (NilEmpty.uint_of_string s').
    - rewrite <- Hn. clear -Hne. by each_byte a. }
  rewrite DecimalZ.of_to.
  destruct (Z.leb_spec int_min n); [|lia].
  destruct (Z.leb_spec n int_max); [done|lia].
Qed.

(** ** Facts: the parameter encoder *)

Lemma structToURLValues_field_written (val : Values) (f : StructField) :
  structToURLValues_field val f =
  if written f then <[Tag_url f := [Sprint (Interface f)]]> val else val.
Proof.
  unfold structToURLValues_field, written, Values_Set.
  destruct f as [name tag [n|x|b]]; simpl.
  - rewrite FormatInt_zero. by destruct (String.eqb tag ""), (n =? 0).
  - by destruct (String.eqb tag ""), (String.eqb x "").
  - by destruct (String.eqb tag "").
Qed.

(** A key no written field carries keeps what it held. *)
Lemma fold_fields_other (fs : list StructField) (val : Values) (key : string) :
  (forall f, In f fs -> Tag_url f = key -> written f = false) ->
  fold_left structToURLValues_field fs val !! key = val !! key.
Proof.
  revert val. induction fs as [|g fs IH]; intros val Hno; [done|].
  simpl. rewrite IH by (intros f Hf; apply Hno; by right).
  rewrite structToURLValues_field_written.
  destruct (written g) eqn:Hg; [|done].
  apply lookup_insert_ne. intros Heq.
  pose proof (Hno g (or_introl eq_refl) Heq). congruence.
Qed.

(** A written field is found under its tag, as long as no other field
    shares the tag. *)
Lemma fold_fields_written (fs : list StructField) (val : Values) (f : StructField) :
  NoDup (map Tag_url fs) -> In f fs -> written f = true ->
  fold_left structToURLValues_field fs val !! Tag_url f
  = Some [Sprint (Interface f)].
Proof.
  revert val. induction fs as [|g fs IH]; intros val Hnd Hin Hw; [done|].
  apply NoDup_cons in Hnd as [Hg Hnd]. simpl. destruct Hin as [->|Hin].
  - rewrite fold_fields_other.
    + rewrite structToURLValues_field_written, Hw. apply lookup_insert_eq.
    + intros h Hh Heq. exfalso. apply Hg. rewrite <- Heq.
      apply list_elem_of_In, in_map, Hh.
  - by apply IH.
Qed.

Lemma fold_fields_singletons (fs : list StructField) (val : Values) :
  (forall k vs, val !! k = Some vs -> exists x, vs = [x]) ->
  forall k vs, fold_left structToURLValues_field fs val !! k = Some vs ->
               exists x, vs = [x].
Proof.
  revert val. induction fs as [|g fs IH]; intros val Hval; [done|].
  simpl. apply IH. intros k vs. rewrite structToURLValues_field_written.
  destruct (written g); [|by apply Hval].
  destruct (decide (Tag_url g = k)) as [<-|Hne].
  - rewrite lookup_insert_eq. intros [= <-]. eauto.
  - rewrite lookup_insert_ne by done. apply Hval.
Qed.

Lemma Tag_url_inj (fs : list StructField) (f g : StructField) :
  NoDup (map Tag_url fs) -> In f fs -> In g fs -> Tag_url f = Tag_url g -> f = g.
Proof.
  induction fs as [|h fs IH]; intros Hnd Hf Hg Heq; [done|].
  apply NoDup_cons in Hnd as [Hh Hnd].
  destruct Hf as [->|Hf], Hg as [->|Hg]; [done| | |by apply IH].
  - exfalso. apply Hh. rewrite Heq. apply list_elem_of_In, in_map, Hg.
  - exfalso. apply Hh. rewrite <- Heq. apply list_elem_of_In, in_map, Hf.
Qed.

(** In every parameter record the tags are distinct and not empty, and
    the fields are strings and ints. *)
Lemma Params_tags_NoDup (p : Params) : NoDup (map Tag_url (Fields p)).
Proof. destruct p; simpl; by apply (bool_decide_unpack _). Qed.

Lemma Params_written (p : Params) (f : StructField) :
  In f (Fields p) -> written f = negb (is_zero_value (Interface f)).
Proof.
  destruct p as [p|p|p|p|p|p]; simpl;
    intros H; repeat (destruct H as [<-|H]; [reflexivity|]); destruct H.
Qed.

Lemma Params_tag_nonempty (p : Params) (f : StructField) :
  In f (Fields p) -> Tag_url f <> EmptyString.
Proof.
  destruct p as [p|p|p|p|p|p]; simpl;
    intros H; repeat (destruct H as [<-|H]; [discriminate|]); destruct H.
Qed.

Lemma structToURLValues_absent {T : Type} `{Struct T} (s : T) (key : string) :
  ~ Exists (fun g => Tag_url g = key /\ written g = true) (Fields s) ->
  structToURLValues s !! key = None.
Proof.
  intros Hno. unfold structToURLValues. rewrite fold_fields_other; [done|].
  intros g Hg Hkey. destruct (written g) eqn:Hw; [|done].
  exfalso. apply Hno, Exists_exists. exists g.
  split; [by apply list_elem_of_In|done].
Qed.

(** C5: for every parameter record and every field of it, the output of
    structToURLValues maps the field's query name to the field's printed
    value if and only if the query name is not empty and the value is not
    the zero value of its type; a field holding its zero value has no
    entry; and the output has no entry besides those of such fields. *)
Theorem structToURLValues_includes_iff (p : Params) (f : StructField) :
  In f (Fields p) ->
  (structToURLValues p !! Tag_url f = Some [Sprint (Interface f)] <->
     Tag_url f <> EmptyString /\ is_zero_value (Interface f) = false) /\
  (is_zero_value (Interface f) = true ->
     structToURLValues p !! Tag_url f = None) /\
  (forall key vs, structToURLValues p !! key = Some vs ->
     exists g, In g (Fields p) /\ Tag_url g = key /\ Tag_url g <> EmptyString /\
               is_zero_value (Interface g) = false /\
               vs = [Sprint (Interface g)]).
Proof.
  intros Hf.
  assert (Hzero : is_zero_value (Interface f) = true ->
                  structToURLValues p !! Tag_url f = None).
  { intros Hz. apply structToURLValues_absent.
    rewrite Exists_exists. intros (g & Hg & Htag & Hw).
    apply list_elem_of_In in Hg.
    assert (g = f) as -> by (eapply Tag_url_inj; eauto using Params_tags_NoDup).
    rewrite (Params_written p f Hf), Hz in Hw. discriminate. }
  split; [split|split; [exact Hzero|]].
  - intros Hsome. split; [by eapply Params_tag_nonempty|].
    destruct (is_zero_value (Interface f)) eqn:Hz; [|done].
    rewrite Hzero in Hsome; done.
  - intros [_ Hz]. apply fold_fields_written; [apply Params_tags_NoDup|done|].
    by rewrite (Params_written p f Hf), Hz.
  - intros key vs Hsome.
    destruct (decide (Exists (fun g => Tag_url g = key /\ written g = true)
                             (Fields p))) as [Hex|Hno].
    + apply Exists_exists in Hex as (g & Hg & <- & Hw).
      apply list_elem_of_In in Hg. exists g.
      split; [done|]. split; [done|]. split; [by eapply Params_tag_nonempty|].
      rewrite (Params_written p g Hg) in Hw. apply negb_true_iff in Hw.
      split; [done|].
      unfold structToURLValues in Hsome.
      rewrite (fold_fields_written (Fields p) ∅ g) in Hsome;
        [congruence|apply Params_tags_NoDup|done|].
      by rewrite (Params_written p g Hg), Hw.
    + by rewrite structToURLValues_absent in Hsome.
Qed.

(** ** Facts: Encode and ParseQuery *)

Lemma sorted_keys_Permutation (m : Values) :
  sorted_keys m ≡ₚ (map_to_list m).*1.
Proof. apply merge_sort_Permutation. Qed.

Lemma NoDup_sorted_keys (m : Values) : NoDup (sorted_keys m).
Proof. rewrite sorted_keys_Permutation. apply NoDup_fst_map_to_list. Qed.

Lemma elem_of_sorted_keys (m : Values) (k : string) :
  k ∈ sorted_keys m <-> is_Some (m !! k).
Proof.
  rewrite sorted_keys_Permutation, list_elem_of_fmap. split.
  - intros ([k' vs] & -> & Hin). apply elem_of_map_to_list in Hin. eauto.
  - intros [vs Hvs]. exists (k, vs). split; [done|].
    by apply elem_of_map_to_list.
Qed.

(** A key holding one value contributes its [key=value] segment. *)
Lemma encode_pairs_lookup (m : Values) (k x : string) :
  m !! k = Some [x] -> In (encode_pair k x) (encode_pairs m).
Proof.
  intros Hk. unfold encode_pairs. apply in_flat_map. exists k. split.
  - apply list_elem_of_In, elem_of_sorted_keys. eauto.
  - rewrite Hk. simpl. by left.
Qed.

Lemma encode_pairs_single_valued (m : Values) :
  single_valued m ->
  encode_pairs m = map (fun k => encode_pair k (Values_Get m k)) (sorted_keys m).
Proof.
  intros Hm. unfold encode_pairs.
  assert (Hkeys : forall k, k ∈ sorted_keys m -> exists x, m !! k = Some [x]).
  { intros k [vs Hvs]%elem_of_sorted_keys.
    destruct (Hm k vs Hvs) as [x ->]. eauto. }
  induction (sorted_keys m) as [|k ks IH]; [done|].
  simpl. rewrite IH by (intros; apply Hkeys; by right).
  destruct (Hkeys k) as [x Hx]; [by left|].
  unfold Values_Get. by rewrite Hx.
Qed.

Lemma encode_pair_not_empty (k x : string) :
  String.eqb (encode_pair k x) "" = false.
Proof.
  apply String.eqb_neq. intros H.
  assert (has_byte "=" (encode_pair k x) = true) as Hb.
  { unfold encode_pair. rewrite !has_byte_app. simpl. apply orb_true_r. }
  by rewrite H in Hb.
Qed.

Lemma parseQuery_step_encode_pair (acc : Values) (err : option url_error)
      (k x : string) :
  parseQuery_step (acc, err) (encode_pair k x)
  = (<[k := default [] (acc !! k) ++ [x]]> acc, err).
Proof.
  unfold parseQuery_step.
  rewrite (Contains_byte _ ";"), encode_pair_no_separator by (by right).
  rewrite encode_pair_not_empty, Cut_encode_pair.
  by rewrite !QueryUnescape_QueryEscape.
Qed.

Lemma parseQuery_fold (m : Values) (keys : list string) (acc : Values) :
  NoDup keys ->
  (forall k, k ∈ keys -> acc !! k = None) ->
  (forall k, k ∈ keys -> exists x, m !! k = Some [x]) ->
  exists r,
    fold_left parseQuery_step
      (map (fun k => encode_pair k (Values_Get m k)) keys) (acc, None)
    = (r, None) /\
    forall k, r !! k = if decide (k ∈ keys) then m !! k else acc !! k.
Proof.
  revert acc. induction keys as [|k keys IH]; intros acc Hnd Hacc Hm.
  - exists acc. split; [done|]. intros k. by rewrite decide_False by set_solver.
  - apply NoDup_cons in Hnd as [Hk Hnd]. cbn [map fold_left].
    rewrite parseQuery_step_encode_pair.
    destruct (Hm k) as [x Hx]; [set_solver|].
    rewrite Hacc by set_solver.
    assert (Values_Get m k = x) as -> by (unfold Values_Get; by rewrite Hx).
    simpl.
    destruct (IH (<[k := [x]]> acc)) as (r & Hr & Hlook); [done| | |].
    + intros k' Hk'. rewrite lookup_insert_ne by set_solver. apply Hacc. set_solver.
    + intros k' Hk'. apply Hm. set_solver.
    + exists r. split; [done|]. intros k'. rewrite Hlook.
      destruct (decide (k' = k)) as [->|Hne].
      * rewrite decide_False by done. rewrite decide_True by set_solver.
        by rewrite lookup_insert_eq.
      * rewrite lookup_insert_ne by done.
        destruct (decide (k' ∈ keys)).
        -- by rewrite decide_True by set_solver.
        -- rewrite decide_False; [done|]. intros [?|?]%elem_of_cons; done.
Qed.

(** Parsing an encoded single-valued mapping gives the mapping back. *)
Lemma ParseQuery_Values_Encode (m : Values) :
  single_valued m -> ParseQuery (Values_Encode m) = (m, None).
Proof.
  intros Hm. unfold ParseQuery, Values_Encode.
  rewrite encode_pairs_single_valued by done.
  assert (Hkeys : forall k, k ∈ sorted_keys m -> exists x, m !! k = Some [x]).
  { intros k [vs Hvs]%elem_of_sorted_keys.
    destruct (Hm k vs Hvs) as [x ->]. eauto. }
  destruct (sorted_keys m) as [|k0 ks] eqn:Hsk.
  - simpl. f_equal. symmetry. apply map_eq. intros k. rewrite lookup_empty.
    destruct (m !! k) eqn:Hk; [|done].
    assert (k ∈ sorted_keys m) as Hin by (apply elem_of_sorted_keys; eauto).
    rewrite Hsk in Hin. set_solver.
  - rewrite (Split_concat _ "&"); [|done|].
    + destruct (parseQuery_fold m (k0 :: ks) ∅) as (r & -> & Hlook).
      * rewrite <- Hsk. apply NoDup_sorted_keys.
      * intros. apply lookup_empty.
      * done.
      * f_equal. apply map_eq. intros k. rewrite Hlook, <- Hsk.
        destruct (decide (k ∈ sorted_keys m)) as [|Hnot]; [done|].
        rewrite lookup_empty. symmetry. apply eq_None_not_Some.
        by rewrite <- elem_of_sorted_keys.
    + apply Forall_forall. intros seg [k [-> _]]%list_elem_of_fmap.
      apply encode_pair_no_separator. by left.
Qed.

Lemma structToURLValues_single_valued {T : Type} `{Struct T} (s : T) :
  single_valued (structToURLValues s).
Proof.
  unfold single_valued, structToURLValues. apply fold_fields_singletons.
  intros k vs. by rewrite lookup_empty.
Qed.

(** C6: parsing the encoding of a parameter record gives back the
    mapping the encoder built, without error, and every field that does
    not hold its zero value is read back from it: a string field as the
    string itself, an int field through strconv.Atoi. *)
Theorem ParseQuery_Encode_structToURLValues (p : Params) :
  let parsed := ParseQuery (Values_Encode (structToURLValues p)) in
  parsed = (structToURLValues p, None) /\
  (forall name tag x, In (str name tag x) (Fields p) -> x <> EmptyString ->
     Values_Get (fst parsed) tag = x) /\
  (forall name tag n, In (int name tag n) (Fields p) -> n <> 0 -> is_int n ->
     Atoi (Values_Get (fst parsed) tag) = Some n).
Proof.
  cbn zeta.
  rewrite ParseQuery_Values_Encode by apply structToURLValues_single_valued.
  assert (Hget : forall f, In f (Fields p) -> is_zero_value (Interface f) = false ->
                 Values_Get (structToURLValues p) (Tag_url f) = Sprint (Interface f)).
  { intros f Hf Hz. unfold Values_Get, structToURLValues.
    rewrite (fold_fields_written (Fields p) ∅ f); [done|apply Params_tags_NoDup|done|].
    by rewrite (Params_written p f Hf), Hz. }
  split; [done|]. split.
  - intros name tag x Hf Hx. apply (Hget (str name tag x) Hf).
    by apply String.eqb_neq.
  - intros name tag n Hf Hn Hint. cbn [fst].
    pose proof (Hget (int name tag n) Hf) as Hn'. cbn in Hn'.
    rewrite Hn' by by apply Z.eqb_neq.
    by apply Atoi_FormatInt.
Qed.

(** ** Facts: the shape of the encoded query *)

Lemma QueryEscape_uint (d : Decimal.uint) :
  QueryEscape (NilEmpty.string_of_uint d) = NilEmpty.string_of_uint d.
Proof. induction d as [|d IH|d IH|d IH|d IH|d IH|d IH|d IH|d IH|d IH|d IH];
         simpl; rewrite ?IH; reflexivity. Qed.

(** A printed int needs no escaping. *)
Lemma QueryEscape_FormatInt (n : Z) : QueryEscape (FormatInt n) = FormatInt n.
Proof.
  unfold FormatInt. destruct (Z.to_int n) as [d|d]; simpl.
  - destruct d; simpl; rewrite ?QueryEscape_uint; reflexivity.
  - destruct d; simpl; rewrite ?QueryEscape_uint; reflexivity.
Qed.

Lemma StronglySorted_filter {A : Type} (R : relation A) (P : A -> Prop)
      `{forall x, Decision (P x)} (l : list A) :
  StronglySorted R l -> StronglySorted R (filter P l).
Proof.
  induction 1 as [|x l Hl IH Hx]; [constructor|].
  rewrite filter_cons. destruct (decide (P x)); [|done].
  constructor; [done|].
  apply Forall_forall. intros y [_ Hy]%list_elem_of_filter.
  by eapply Forall_forall in Hx.
Qed.

(** Values.Encode visits the keys in sorted order; a key without entry
    writes nothing, so the walk may as well be over any sorted list of
    distinct keys that has all the keys of the mapping. *)
Lemma encode_pairs_sorted_tags (v : Values) (tags : list string) :
  NoDup tags ->
  (forall k, is_Some (v !! k) -> k ∈ tags) ->
  encode_pairs v =
  flat_map (fun k => map (encode_pair k) (default [] (v !! k)))
           (merge_sort String.le tags).
Proof.
  intros Hnd Hkeys. unfold encode_pairs.
  assert (sorted_keys v
          = filter (fun k => is_Some (v !! k)) (merge_sort String.le tags)) as ->.
  { apply (StronglySorted_unique String.le).
    - apply StronglySorted_merge_sort; apply _.
    - apply StronglySorted_filter, StronglySorted_merge_sort; apply _.
    - apply NoDup_Permutation.
      + apply NoDup_sorted_keys.
      + apply NoDup_filter. by rewrite merge_sort_Permutation.
      + intros k. rewrite elem_of_sorted_keys, list_elem_of_filter,
          merge_sort_Permutation.
        split; [intros Hk; split; [done|by apply Hkeys]|by intros [Hk _]]. }
  induction (merge_sort String.le tags) as [|k ks IH]; [done|].
  rewrite filter_cons. destruct (decide (is_Some (v !! k))) as [Hk|Hk].
  - simpl. by rewrite IH.
  - simpl. rewrite IH. apply eq_None_not_Some in Hk. by rewrite Hk.
Qed.

Lemma structToURLValues_keys {T : Type} `{Struct T} (s : T) (k : string) :
  is_Some (structToURLValues s !! k) -> k ∈ map Tag_url (Fields s).
Proof.
  intros Hk.
  destruct (decide (Exists (fun g => Tag_url g = k /\ written g = true) (Fields s)))
    as [Hex|Hno].
  - apply Exists_exists in Hex as (g & Hg & <- & _).
    apply list_elem_of_In, in_map. by apply list_elem_of_In.
  - rewrite structToURLValues_absent in Hk by done. by destruct Hk.
Qed.

(** What a parameter record's field leaves under its query name. *)
Lemma Params_lookup (p : Params) (f : StructField) :
  In f (Fields p) ->
  structToURLValues p !! Tag_url f
  = if is_zero_value (Interface f) then None else Some [Sprint (Interface f)].
Proof.
  intros Hf. destruct (is_zero_value (Interface f)) eqn:Hz.
  - apply structToURLValues_absent. rewrite Exists_exists.
    intros (g & Hg & Htag & Hw). apply list_elem_of_In in Hg.
    assert (g = f) as -> by (eapply Tag_url_inj; eauto using Params_tags_NoDup).
    rewrite (Params_written p f Hf), Hz in Hw. discriminate.
  - apply fold_fields_written; [apply Params_tags_NoDup|done|].
    by rewrite (Params_written p f Hf), Hz.
Qed.

Lemma Params_str_lookup (p : Params) (name tag x : string) :
  In (str name tag x) (Fields p) -> x <> EmptyString ->
  structToURLValues p !! tag = Some [x].
Proof.
  intros Hf Hx. pose proof (Params_lookup p _ Hf) as Hl. cbn in Hl.
  rewrite Hl. by apply String.eqb_neq in Hx as ->.
Qed.

Lemma Params_int_lookup (p : Params) (name tag : string) (n : Z) :
  In (int name tag n) (Fields p) -> n <> 0 ->
  structToURLValues p !! tag = Some [FormatInt n].
Proof.
  intros Hf Hn. pose proof (Params_lookup p _ Hf) as Hl. cbn in Hl.
  rewrite Hl. by apply Z.eqb_neq in Hn as ->.
Qed.

Lemma encode_pairs_Params (p : Params) :
  encode_pairs (structToURLValues p) =
  flat_map (fun k => map (encode_pair k) (default [] (structToURLValues p !! k)))
           (merge_sort String.le (map Tag_url (Fields p))).
Proof.
  apply encode_pairs_sorted_tags; [apply Params_tags_NoDup|].
  apply structToURLValues_keys.
Qed.

Lemma segment_str (p : Params) (name tag x : string) :
  In (str name tag x) (Fields p) ->
  map (encode_pair tag) (default [] (structToURLValues p !! tag))
  = opt_str (QueryEscape tag) x.
Proof.
  intros Hf. pose proof (Params_lookup p _ Hf) as Hl. cbn in Hl. rewrite Hl.
  unfold opt_str. by destruct (String.eqb x "").
Qed.

Lemma segment_int (p : Params) (name tag : string) (n : Z) :
  In (int name tag n) (Fields p) ->
  map (encode_pair tag) (default [] (structToURLValues p !! tag))
  = opt_int (QueryEscape tag) n.
Proof.
  intros Hf. pose proof (Params_lookup p _ Hf) as Hl. cbn in Hl. rewrite Hl.
  unfold opt_int. destruct (n =? 0); [done|].
  simpl. unfold encode_pair. by rewrite QueryEscape_FormatInt.
Qed.

Ltac sorted_tags :=
  match goal with
  | |- context [merge_sort String.le ?l] =>
      let r := eval vm_compute in (merge_sort String.le l) in
      change (merge_sort String.le l) with r
  end.

Ltac segments P :=
  unfold Values_Encode; f_equal;
  match goal with
  | |- context [@structToURLValues _ _ ?p] =>
      change (encode_pairs (structToURLValues p))
        with (encode_pairs (structToURLValues (P p)));
      rewrite (encode_pairs_Params (P p)); destruct p
  end;
  sorted_tags; cbn [flat_map];
  repeat first
    [ erewrite (segment_str (P _)) by (simpl; eauto 10)
    | erewrite (segment_int (P _)) by (simpl; eauto 10) ];
  by rewrite app_nil_r.

Lemma Encode_GetPhotosParams (p : GetPhotosParams.t) :
  Values_Encode (structToURLValues p) =
  String.concat "&"
    (opt_str "color" (GetPhotosParams.Color p) ++
     opt_str "locale" (GetPhotosParams.Locale p) ++
     opt_str "orientation" (GetPhotosParams.Orientation p) ++
     opt_int "page" (GetPhotosParams.Page p) ++
     opt_int "per_page" (GetPhotosParams.PerPage p) ++
     opt_str "query" (GetPhotosParams.Query p) ++
     opt_str "size" (GetPhotosParams.Size p)).
Proof. segments PhotosParams. Qed.

Lemma Encode_GetCuratedPhotoParams (p : GetCuratedPhotoParams.t) :
  Values_Encode (structToURLValues p) =
  String.concat "&"
    (opt_int "page" (GetCuratedPhotoParams.Page p) ++
     opt_int "per_page" (GetCuratedPhotoParams.PerPage p)).
Proof. segments CuratedPhotoParams. Qed.

Lemma Encode_GetFeaturedCollectionParams (p : GetFeaturedCollectionParams.t) :
  Values_Encode (structToURLValues p) =
  String.concat "&"
    (opt_int "page" (GetFeaturedCollectionParams.Page p) ++
     opt_int "per_page" (GetFeaturedCollectionParams.PerPage p)).
Proof. segments FeaturedCollectionParams. Qed.

Lemma Encode_GetCollectionMediaParams (p : GetCollectionMediaParams.t) :
  Values_Encode (structToURLValues p) =
  String.concat "&"
    (opt_int "page" (GetCollectionMediaParams.Page p) ++
     opt_int "per_page" (GetCollectionMediaParams.PerPage p) ++
     opt_str "sort" (GetCollectionMediaParams.Sort p) ++
     opt_str "type" (GetCollectionMediaParams.Type_ p)).
Proof. segments CollectionMediaParams. Qed.

Lemma Encode_GetVideosParams (p : GetVideosParams.t) :
  Values_Encode (structToURLValues p) =
  String.concat "&"
    (opt_str "locale" (GetVideosParams.Locale p) ++
     opt_str "orientation" (GetVideosParams.Orientation p) ++
     opt_int "page" (GetVideosParams.Page p) ++
     opt_int "per_page" (GetVideosParams.PerPage p) ++
     opt_str "query" (GetVideosParams.Query p) ++
     opt_str "size" (GetVideosParams.Size p)).
Proof. segments VideosParams. Qed.

Lemma Encode_GetPopularVideosParams (p : GetPopularVideosParams.t) :
  Values_Encode (structToURLValues p) =
  String.concat "&"
    (opt_int "max_duration" (GetPopularVideosParams.MaxDuration p) ++
     opt_int "min_duration" (GetPopularVideosParams.MinDuration p) ++
     opt_int "min_height" (GetPopularVideosParams.MinHeight p) ++
     opt_int "min_width" (GetPopularVideosParams.MinWidth p) ++
     opt_int "page" (GetPopularVideosParams.Page p) ++
     opt_int "per_page" (GetPopularVideosParams.PerPage p)).
Proof. segments PopularVideosParams. Qed.

(** X8: the query string of each parameter record, in closed form: the
    segments come in the byte order of the query names (not in the order
    the fields are declared), a field holding its zero value contributes
    none, string values are escaped and ints printed in decimal. *)
Theorem encoded_query_closed_form :
  (forall p : GetPhotosParams.t,
      Values_Encode (structToURLValues p) =
      String.concat "&"
        (opt_str "color" (GetPhotosParams.Color p) ++
         opt_str "locale" (GetPhotosParams.Locale p) ++
         opt_str "orientation" (GetPhotosParams.Orientation p) ++
         opt_int "page" (GetPhotosParams.Page p) ++
         opt_int "per_page" (GetPhotosParams.PerPage p) ++
         opt_str "query" (GetPhotosParams.Query p) ++
         opt_str "size" (GetPhotosParams.Size p))) /\
  (forall p : GetCuratedPhotoParams.t,
      Values_Encode (structToURLValues p) =
      String.concat "&"
        (opt_int "page" (GetCuratedPhotoParams.Page p) ++
         opt_int "per_page" (GetCuratedPhotoParams.PerPage p))) /\
  (forall p : GetFeaturedCollectionParams.t,
      Values_Encode (structToURLValues p) =
      String.concat "&"
        (opt_int "page" (GetFeaturedCollectionParams.Page p) ++
         opt_int "per_page" (GetFeaturedCollectionParams.PerPage p))) /\
  (forall p : GetCollectionMediaParams.t,
      Values_Encode (structToURLValues p) =
      String.concat "&"
        (opt_int "page" (GetCollectionMediaParams.Page p) ++
         opt_int "per_page" (GetCollectionMediaParams.PerPage p) ++
         opt_str "sort" (GetCollectionMediaParams.Sort p) ++
         opt_str "type" (GetCollectionMediaParams.Type_ p))) /\
  (forall p : GetVideosParams.t,
      Values_Encode (structToURLValues p) =
      String.concat "&"
        (opt_str "locale" (GetVideosParams.Locale p) ++
         opt_str "orientation" (GetVideosParams.Orientation p) ++
         opt_int "page" (GetVideosParams.Page p) ++
         opt_int "per_page" (GetVideosParams.PerPage p) ++
         opt_str "query" (GetVideosParams.Query p) ++
         opt_str "size" (GetVideosParams.Size p))) /\
  (forall p : GetPopularVideosParams.t,
      Values_Encode (structToURLValues p) =
      String.concat "&"
        (opt_int "max_duration" (GetPopularVideosParams.MaxDuration p) ++
         opt_int "min_duration" (GetPopularVideosParams.MinDuration p) ++
         opt_int "min_height" (GetPopularVideosParams.MinHeight p) ++
         opt_int "min_width" (GetPopularVideosParams.MinWidth p) ++
         opt_int "page" (GetPopularVideosParams.Page p) ++
         opt_int "per_page" (GetPopularVideosParams.PerPage p))).
Proof.
  split; [exact Encode_GetPhotosParams|].
  split; [exact Encode_GetCuratedPhotoParams|].
  split; [exact Encode_GetFeaturedCollectionParams|].
  split; [exact Encode_GetCollectionMediaParams|].
  split; [exact Encode_GetVideosParams|exact Encode_GetPopularVideosParams].
Qed.

(** ** Facts: structToURLValues on any struct *)

Lemma fold_fields_last (l1 l2 : list StructField) (f : StructField) (val : Values) :
  written f = true ->
  (forall g, In g l2 -> Tag_url g = Tag_url f -> written g = false) ->
  fold_left structToURLValues_field (l1 ++ f :: l2) val !! Tag_url f
  = Some [Sprint (Interface f)].
Proof.
  intros Hw Hl2. rewrite fold_left_app. cbn [fold_left].
  rewrite fold_fields_other by done.
  rewrite structToURLValues_field_written, Hw. apply lookup_insert_eq.
Qed.


(** ** Facts: the bytes of the encoded query *)

Lemma all_bytes_app (P : ascii -> bool) (a b : string) :
  all_bytes P (a +:+ b) = all_bytes P a && all_bytes P b.
Proof.
  induction a as [|c a IH]; [done|].
  rewrite append_cons. simpl. rewrite IH. apply andb_assoc.
Qed.

Lemma all_bytes_has_byte (P : ascii -> bool) (s : string) (c : ascii) :
  all_bytes P s = true -> P c = false -> has_byte c s = false.
Proof.
  intros Hs Hc. induction s as [|a s IH]; [done|].
  simpl in *. apply andb_true_iff in Hs as [Ha Hs]. rewrite IH by done.
  unfold byte_eqb. destruct (Ascii.eqb_spec a c) as [->|]; [congruence|done].
Qed.

Lemma QueryEscape_query_byte_cons (c : ascii) (s : string) :
  all_bytes query_byte (QueryEscape (String c s))
  = all_bytes query_byte (QueryEscape s).
Proof. each_byte c; reflexivity. Qed.

Lemma QueryEscape_query_bytes (s : string) :
  all_bytes query_byte (QueryEscape s) = true.
Proof.
  induction s as [|c s IH]; [done|]. by rewrite QueryEscape_query_byte_cons.
Qed.

Lemma all_bytes_concat (P : ascii -> bool) (sep : string) (l : list string) :
  all_bytes P sep = true ->
  (forall x, In x l -> all_bytes P x = true) ->
  all_bytes P (String.concat sep l) = true.
Proof.
  intros Hsep. induction l as [|x l IH]; intros Hl; [done|].
  destruct l as [|y l].
  - apply Hl. by left.
  - change (String.concat sep (x :: y :: l))
      with (x +:+ sep +:+ String.concat sep (y :: l)).
    rewrite !all_bytes_app, Hsep, (Hl x) by (by left).
    rewrite IH; [done|]. intros z Hz. apply Hl. by right.
Qed.

Lemma Values_Encode_query_bytes (v : Values) :
  all_bytes query_byte (Values_Encode v) = true.
Proof.
  apply all_bytes_concat; [done|].
  intros seg (k & _ & Hseg)%in_flat_map.
  apply in_map_iff in Hseg as (x & <- & _).
  unfold encode_pair. by rewrite !all_bytes_app, !QueryEscape_query_bytes.
Qed.

(** X12: whatever bytes the fields of a struct hold, the query string
    made from it consists of letters, digits and the bytes [-_.~%+=&] only;
    a byte outside this set (a space, a question mark, a hash, a slash, a
    control byte) does not occur in it. *)
Theorem encoded_query_bytes {T : Type} `{Struct T} (s : T) :
  all_bytes query_byte (Values_Encode (structToURLValues s)) = true /\
  forall c, query_byte c = false ->
            has_byte c (Values_Encode (structToURLValues s)) = false.
Proof.
  split; [apply Values_Encode_query_bytes|].
  intros c Hc. eapply all_bytes_has_byte; [apply Values_Encode_query_bytes|done].
Qed.

Section Pexels_facts.

Context {env : Env}.

(** ** Facts: the request pipeline *)

Ltac run_monad :=
  unfold mbind, M_bind, mret, M_ret, bind, ret, throw, load, store, emit, lift;
  simpl.

Lemma sendRequest_eq {P : Type} (c : Client) (ctx : context_Context)
      (req : Request) (T : ResponseType) (w : World P) :
  sendRequest c ctx req T w
  = (classify T (Do (HTTPClient c) req),
     mkWorld (pointee w) (trace w ++ [Do_call req])).
Proof.
  unfold sendRequest, HTTPClient_Do, classify, StatusOK, StatusBadRequest.
  run_monad.
  destruct (Do (HTTPClient c) req) as [e|res]; [done|].
  destruct ((StatusCode res <? 200) || (StatusCode res >=? 400)); [|done].
  by destruct (io_ReadAll (Body res)).
Qed.

Lemma trace_snoc2 (tr : list Event) (a b : Event) :
  (tr ++ [a]) ++ [b] = tr ++ [a; b].
Proof. by rewrite <- app_assoc. Qed.

(** Each binding, run to its end. *)

Create HintDb setters.
Hint Unfold GetPhotosParams.set_Page GetPhotosParams.set_PerPage
     GetCuratedPhotoParams.set_Page GetCuratedPhotoParams.set_PerPage
     GetFeaturedCollectionParams.set_Page GetFeaturedCollectionParams.set_PerPage
     GetCollectionMediaParams.set_Page GetCollectionMediaParams.set_PerPage
     GetVideosParams.set_Page GetVideosParams.set_PerPage
     GetPopularVideosParams.set_Page GetPopularVideosParams.set_PerPage : setters.

Ltac exec_binding pg pp :=
  unfold http_NewRequest, dispatched, or_default;
  run_monad;
  destruct (pg =? 0) eqn:Hpg; simpl; rewrite ?Hpg; simpl;
  destruct (pp =? 0) eqn:Hpp; simpl; rewrite ?Hpp; simpl;
  autounfold with setters; simpl;
  try match goal with
      | |- context [String.eqb ?q ""] => destruct (String.eqb q ""); [done|]
      end;
  (match goal with
   | |- context [url_Parse_error ?u] => destruct (url_Parse_error u)
   end; [done|]);
  rewrite sendRequest_eq; simpl; by rewrite trace_snoc2.

Lemma GetPhotos_eq (c : Client) (ctx : context_Context) (w : World GetPhotosParams.t) :
  GetPhotos c ctx w =
  let p := pointee w in
  let p' := GetPhotosParams.mk
              (GetPhotosParams.Query p) (GetPhotosParams.Orientation p)
              (GetPhotosParams.Size p) (GetPhotosParams.Color p)
              (GetPhotosParams.Locale p)
              (or_default 1 (GetPhotosParams.Page p))
              (or_default 5 (GetPhotosParams.PerPage p)) in
  let w' := mkWorld p' (trace w) in
  if String.eqb (GetPhotosParams.Query p) "" then
    (inl (errorString "Query field cannot be empty."), w')
  else
    dispatched c ctx false
      (BaseURL c +:+ Version c +:+ "/search?"
         +:+ Values_Encode (structToURLValues p'))
      GetPhotoResponse w'.
Proof.
  destruct w as [[q o sz cl lc pg pp] tr].
  unfold GetPhotos. exec_binding pg pp.
Qed.

Lemma GetCurated_eq (c : Client) (ctx : context_Context)
      (w : World GetCuratedPhotoParams.t) :
  GetCurated c ctx w =
  let p := pointee w in
  let p' := GetCuratedPhotoParams.mk
              (or_default 1 (GetCuratedPhotoParams.Page p))
              (or_default 5 (GetCuratedPhotoParams.PerPage p)) in
  dispatched c ctx true
    (BaseURL c +:+ Version c +:+ "/curated?"
       +:+ Values_Encode (structToURLValues p'))
    GetPhotoResponse (mkWorld p' (trace w)).
Proof.
  destruct w as [[pg pp] tr]. unfold GetCurated. exec_binding pg pp.
Qed.

Lemma GetPhoto_eq (c : Client) (ctx : context_Context) (id : string) (w : World unit) :
  GetPhoto c ctx id w =
  dispatched c ctx true (BaseURL c +:+ Version c +:+ "/photos/" +:+ id) Photo w.
Proof.
  destruct w as [u tr].
  unfold GetPhoto, http_NewRequest, dispatched. run_monad.
  destruct (url_Parse_error _); [done|].
  rewrite sendRequest_eq; simpl; by rewrite trace_snoc2.
Qed.

Lemma getCollections_eq (c : Client) (ctx : context_Context) (own : bool)
      (w : World GetFeaturedCollectionParams.t) :
  getCollections c ctx own w =
  let p := pointee w in
  let p' := GetFeaturedCollectionParams.mk
              (or_default 1 (GetFeaturedCollectionParams.Page p))
              (or_default 5 (GetFeaturedCollectionParams.PerPage p)) in
  dispatched c ctx true
    (BaseURL c +:+ Version c
       +:+ (if own then "/collections?" else "/collections/featured?")
       +:+ Values_Encode (structToURLValues p'))
    GetCollectionsResponse (mkWorld p' (trace w)).
Proof.
  destruct w as [[pg pp] tr]. unfold getCollections.
  destruct own; exec_binding pg pp.
Qed.

Lemma GetCollection_eq (c : Client) (ctx : context_Context) (id : string)
      (w : World GetCollectionMediaParams.t) :
  GetCollection c ctx id w =
  let p := pointee w in
  let p' := GetCollectionMediaParams.mk
              (GetCollectionMediaParams.Type_ p) (GetCollectionMediaParams.Sort p)
              (or_default 1 (GetCollectionMediaParams.Page p))
              (or_default 5 (GetCollectionMediaParams.PerPage p)) in
  dispatched c ctx true
    (BaseURL c +:+ Version c +:+ "/collections/" +:+ id +:+ "?"
       +:+ Values_Encode (structToURLValues p'))
    CollectionMedia (mkWorld p' (trace w)).
Proof.
  destruct w as [[ty so pg pp] tr]. unfold GetCollection. exec_binding pg pp.
Qed.

Lemma GetVideo_eq (c : Client) (ctx : context_Context) (id : string) (w : World unit) :
  GetVideo c ctx id w =
  dispatched c ctx true (BaseURL c +:+ "/videos/videos/" +:+ id) Video w.
Proof.
  destruct w as [u tr].
  unfold GetVideo, http_NewRequest, dispatched. run_monad.
  destruct (url_Parse_error _); [done|].
  rewrite sendRequest_eq; simpl; by rewrite trace_snoc2.
Qed.

Lemma GetPopularVideos_eq (c : Client) (ctx : context_Context)
      (w : World GetPopularVideosParams.t) :
  GetPopularVideos c ctx w =
  let p := pointee w in
  let p' := GetPopularVideosParams.mk
              (GetPopularVideosParams.MinWidth p) (GetPopularVideosParams.MinHeight p)
              (GetPopularVideosParams.MinDuration p)
              (GetPopularVideosParams.MaxDuration p)
              (or_default 1 (GetPopularVideosParams.Page p))
              (or_default 2 (GetPopularVideosParams.PerPage p)) in
  dispatched c ctx true
    (BaseURL c +:+ "videos/popular?" +:+ Values_Encode (structToURLValues p'))
    GetVideosResponse (mkWorld p' (trace w)).
Proof.
  destruct w as [[mw mh mind maxd pg pp] tr]. unfold GetPopularVideos.
  exec_binding pg pp.
Qed.

Lemma GetVideos_eq (c : Client) (ctx : context_Context) (w : World GetVideosParams.t) :
  GetVideos c ctx w =
  let p := pointee w in
  let p' := GetVideosParams.mk
              (GetVideosParams.Query p) (GetVideosParams.Orientation p)
              (GetVideosParams.Size p) (GetVideosParams.Locale p)
              (or_default 1 (GetVideosParams.Page p))
              (or_default 5 (GetVideosParams.PerPage p)) in
  let w' := mkWorld p' (trace w) in
  if String.eqb (GetVideosParams.Query p) "" then
    (inl (errorString "Query field cannot be empty."), w')
  else
    dispatched c ctx false
      (BaseURL c +:+ "/videos/search?" +:+ Values_Encode (structToURLValues p'))
      GetVideosResponse w'.
Proof.
  destruct w as [[q o sz lc pg pp] tr]. unfold GetVideos. exec_binding pg pp.
Qed.

(** What the common tail leaves behind. *)

Lemma dispatched_pointee {P : Type} (c : Client) (ctx : context_Context)
      (ct : bool) (url : string) (T : ResponseType) (w : World P) :
  pointee (snd (dispatched c ctx ct url T w)) = pointee w.
Proof. unfold dispatched. by destruct (url_Parse_error url). Qed.

Lemma dispatched_built_urls {P : Type} (c : Client) (ctx : context_Context)
      (ct : bool) (url : string) (T : ResponseType) (w : World P) :
  built_urls (trace (snd (dispatched c ctx ct url T w)))
  = built_urls (trace w) ++ [url].
Proof.
  unfold dispatched, built_urls.
  destruct (url_Parse_error url); cbn [snd trace];
    rewrite flat_map_app; reflexivity.
Qed.

Lemma dispatched_sent_requests {P : Type} (c : Client) (ctx : context_Context)
      (ct : bool) (url : string) (T : ResponseType) (w : World P) :
  sent_requests (trace (snd (dispatched c ctx ct url T w)))
  = sent_requests (trace w) ++ requests_for c ctx ct [url].
Proof.
  unfold dispatched, sent_requests, requests_for. cbn [flat_map].
  destruct (url_Parse_error url); cbn [snd trace];
    rewrite flat_map_app; reflexivity.
Qed.

Lemma dispatched_result {P : Type} (c : Client) (ctx : context_Context)
      (ct : bool) (url : string) (T : ResponseType) (w : World P) :
  fst (dispatched c ctx ct url T w)
  = match url_Parse_error url with
    | Some e => inl e
    | None => classify T (Do (HTTPClient c) (request_for c ctx ct url))
    end.
Proof. unfold dispatched. by destruct (url_Parse_error url). Qed.

(** ** The claims on the bindings *)

(** C1: GetPhotos and GetVideos, called on a record whose query is
    empty, return the error "Query field cannot be empty." and no
    response, and add no event: no request is built and none is sent. *)
Theorem empty_query_rejected (c : Client) (ctx : context_Context) :
  (forall w : World GetPhotosParams.t,
      GetPhotosParams.Query (pointee w) = EmptyString ->
      fst (GetPhotos c ctx w) = inl (errorString "Query field cannot be empty.") /\
      trace (snd (GetPhotos c ctx w)) = trace w) /\
  (forall w : World GetVideosParams.t,
      GetVideosParams.Query (pointee w) = EmptyString ->
      fst (GetVideos c ctx w) = inl (errorString "Query field cannot be empty.") /\
      trace (snd (GetVideos c ctx w)) = trace w).
Proof.
  split; intros w Hq.
  - rewrite GetPhotos_eq. simpl. by rewrite Hq.
  - rewrite GetVideos_eq. simpl. by rewrite Hq.
Qed.

(** C10: every list-shape binding leaves the defaulted record behind
    the caller's pointer, whatever the outcome of the call: Page is 1 if
    it was 0, PerPage is the endpoint's default if it was 0, and the other
    fields are as they were.  GetPhotos and GetVideos do so also when
    they fail on the empty query. *)
Theorem defaults_written_in_place (c : Client) (ctx : context_Context) :
  (forall w, pointee (snd (GetPhotos c ctx w)) =
     let p := pointee w in
     GetPhotosParams.mk
       (GetPhotosParams.Query p) (GetPhotosParams.Orientation p)
       (GetPhotosParams.Size p) (GetPhotosParams.Color p) (GetPhotosParams.Locale p)
       (or_default 1 (GetPhotosParams.Page p))
       (or_default 5 (GetPhotosParams.PerPage p))) /\
  (forall w, pointee (snd (GetCurated c ctx w)) =
     let p := pointee w in
     GetCuratedPhotoParams.mk
       (or_default 1 (GetCuratedPhotoParams.Page p))
       (or_default 5 (GetCuratedPhotoParams.PerPage p))) /\
  (forall own w, pointee (snd (getCollections c ctx own w)) =
     let p := pointee w in
     GetFeaturedCollectionParams.mk
       (or_default 1 (GetFeaturedCollectionParams.Page p))
       (or_default 5 (GetFeaturedCollectionParams.PerPage p))) /\
  (forall id w, pointee (snd (GetCollection c ctx id w)) =
     let p := pointee w in
     GetCollectionMediaParams.mk
       (GetCollectionMediaParams.Type_ p) (GetCollectionMediaParams.Sort p)
       (or_default 1 (GetCollectionMediaParams.Page p))
       (or_default 5 (GetCollectionMediaParams.PerPage p))) /\
  (forall w, pointee (snd (GetPopularVideos c ctx w)) =
     let p := pointee w in
     GetPopularVideosParams.mk
       (GetPopularVideosParams.MinWidth p) (GetPopularVideosParams.MinHeight p)
       (GetPopularVideosParams.MinDuration p) (GetPopularVideosParams.MaxDuration p)
       (or_default 1 (GetPopularVideosParams.Page p))
       (or_default 2 (GetPopularVideosParams.PerPage p))) /\
  (forall w, pointee (snd (GetVideos c ctx w)) =
     let p := pointee w in
     GetVideosParams.mk
       (GetVideosParams.Query p) (GetVideosParams.Orientation p)
       (GetVideosParams.Size p) (GetVideosParams.Locale p)
       (or_default 1 (GetVideosParams.Page p))
       (or_default 5 (GetVideosParams.PerPage p))) /\
  (forall w,
      GetPhotosParams.Query (pointee w) = EmptyString ->
      GetPhotosParams.Page (pointee w) = 0 ->
      GetPhotosParams.PerPage (pointee w) = 0 ->
      fst (GetPhotos c ctx w) = inl (errorString "Query field cannot be empty.") /\
      GetPhotosParams.Page (pointee (snd (GetPhotos c ctx w))) = 1 /\
      GetPhotosParams.PerPage (pointee (snd (GetPhotos c ctx w))) = 5 /\
      pointee (snd (GetPhotos c ctx w)) <> pointee w) /\
  (forall w,
      GetVideosParams.Query (pointee w) = EmptyString ->
      GetVideosParams.Page (pointee w) = 0 ->
      GetVideosParams.PerPage (pointee w) = 0 ->
      fst (GetVideos c ctx w) = inl (errorString "Query field cannot be empty.") /\
      GetVideosParams.Page (pointee (snd (GetVideos c ctx w))) = 1 /\
      GetVideosParams.PerPage (pointee (snd (GetVideos c ctx w))) = 5 /\
      pointee (snd (GetVideos c ctx w)) <> pointee w).
Proof.
  split; [|split; [|split; [|split; [|split; [|split; [|split]]]]]].
  - intros w. rewrite GetPhotos_eq. cbn zeta.
    destruct (String.eqb _ _); [done|]. by rewrite dispatched_pointee.
  - intros w. rewrite GetCurated_eq. cbn zeta. by rewrite dispatched_pointee.
  - intros own w. rewrite getCollections_eq. cbn zeta. by rewrite dispatched_pointee.
  - intros id w. rewrite GetCollection_eq. cbn zeta. by rewrite dispatched_pointee.
  - intros w. rewrite GetPopularVideos_eq. cbn zeta. by rewrite dispatched_pointee.
  - intros w. rewrite GetVideos_eq. cbn zeta.
    destruct (String.eqb _ _); [done|]. by rewrite dispatched_pointee.
  - intros [[q o sz cl lc pg pp] tr]. cbn [pointee GetPhotosParams.Query
      GetPhotosParams.Page GetPhotosParams.PerPage]. intros -> -> ->.
    rewrite GetPhotos_eq. by repeat split.
  - intros [[q o sz lc pg pp] tr]. cbn [pointee GetVideosParams.Query
      GetVideosParams.Page GetVideosParams.PerPage]. intros -> -> ->.
    rewrite GetVideos_eq. by repeat split.
Qed.

Lemma written_field_encoded (p : Params) (f : StructField) :
  In f (Fields p) -> written f = true ->
  In (encode_pair (Tag_url f) (Sprint (Interface f)))
     (encode_pairs (structToURLValues p)) /\
  Contains (Values_Encode (structToURLValues p))
           (encode_pair (Tag_url f) (Sprint (Interface f))) = true.
Proof.
  intros Hf Hw.
  assert (In (encode_pair (Tag_url f) (Sprint (Interface f)))
             (encode_pairs (structToURLValues p))) as Hin.
  { apply encode_pairs_lookup, fold_fields_written;
      [apply Params_tags_NoDup|done|done]. }
  split; [done|]. by apply In_concat_Contains.
Qed.

Ltac defaults_encoded P :=
  unfold encodes_defaults; eexists;
  rewrite dispatched_built_urls; cbn [trace built_urls flat_map app];
  rewrite ?append_assoc;
  (split; [reflexivity|]);
  split; intros ->;
  [ apply (written_field_encoded (P _) (int "Page" "page" 1));
    [simpl; tauto|reflexivity]
  | first [ apply (written_field_encoded (P _) (int "PerPage" "per_page" 5))
          | apply (written_field_encoded (P _) (int "PerPage" "per_page" 2)) ];
    [simpl; tauto|reflexivity] ].

(** C2: each list-shape binding that builds a URL builds one whose
    encoded query has the segment page=1 when the record's Page was 0, and
    the segment per_page=5 (per_page=2 for popular videos) when its PerPage
    was 0.  The two search bindings build a URL when the query is not
    empty; the others always do. *)
Theorem pagination_defaults_encoded (c : Client) (ctx : context_Context) :
  (forall p, GetPhotosParams.Query p <> EmptyString ->
     encodes_defaults (trace (snd (run (GetPhotos c ctx) p)))
       (BaseURL c +:+ Version c +:+ "/search?")
       (GetPhotosParams.Page p) (GetPhotosParams.PerPage p) "5") /\
  (forall p,
     encodes_defaults (trace (snd (run (GetCurated c ctx) p)))
       (BaseURL c +:+ Version c +:+ "/curated?")
       (GetCuratedPhotoParams.Page p) (GetCuratedPhotoParams.PerPage p) "5") /\
  (forall p, GetVideosParams.Query p <> EmptyString ->
     encodes_defaults (trace (snd (run (GetVideos c ctx) p)))
       (BaseURL c +:+ "/videos/search?")
       (GetVideosParams.Page p) (GetVideosParams.PerPage p) "5") /\
  (forall p,
     encodes_defaults (trace (snd (run (GetPopularVideos c ctx) p)))
       (BaseURL c +:+ "videos/popular?")
       (GetPopularVideosParams.Page p) (GetPopularVideosParams.PerPage p) "2") /\
  (forall p,
     encodes_defaults (trace (snd (run (GetFeaturedCollections c ctx) p)))
       (BaseURL c +:+ Version c +:+ "/collections/featured?")
       (GetFeaturedCollectionParams.Page p)
       (GetFeaturedCollectionParams.PerPage p) "5") /\
  (forall p,
     encodes_defaults (trace (snd (run (GetUserCollections c ctx) p)))
       (BaseURL c +:+ Version c +:+ "/collections?")
       (GetFeaturedCollectionParams.Page p)
       (GetFeaturedCollectionParams.PerPage p) "5") /\
  (forall id p,
     encodes_defaults (trace (snd (run (GetCollection c ctx id) p)))
       (BaseURL c +:+ Version c +:+ "/collections/" +:+ id +:+ "?")
       (GetCollectionMediaParams.Page p) (GetCollectionMediaParams.PerPage p) "5").
Proof.
  unfold run, GetFeaturedCollections, GetUserCollections.
  split; [|split; [|split; [|split; [|split; [|split]]]]].
  - intros p Hq. rewrite GetPhotos_eq. cbn [pointee trace].
    destruct (String.eqb_spec (GetPhotosParams.Query p) ""); [done|].
    defaults_encoded PhotosParams.
  - intros p. rewrite GetCurated_eq. cbn [pointee trace].
    defaults_encoded CuratedPhotoParams.
  - intros p Hq. rewrite GetVideos_eq. cbn [pointee trace].
    destruct (String.eqb_spec (GetVideosParams.Query p) ""); [done|].
    defaults_encoded VideosParams.
  - intros p. rewrite GetPopularVideos_eq. cbn [pointee trace].
    defaults_encoded PopularVideosParams.
  - intros p. rewrite getCollections_eq. cbn [pointee trace].
    defaults_encoded FeaturedCollectionParams.
  - intros p. rewrite getCollections_eq. cbn [pointee trace].
    defaults_encoded FeaturedCollectionParams.
  - intros id p. rewrite GetCollection_eq. cbn [pointee trace].
    defaults_encoded CollectionMediaParams.
Qed.

(** C7: GetFeaturedCollections and GetUserCollections run the same
    steps on the same defaulted record and the same encoded query; the
    URL is BaseURL Version "/collections/featured" "?" query for the first
    (own is false) and BaseURL Version "/collections" "?" query for the
    second (own is true).  The record left behind, the header lines of the
    request sent and the reading of the answer do not depend on own. *)
Theorem getCollections_routing (c : Client) (ctx : context_Context)
        (w : World GetFeaturedCollectionParams.t) :
  let p' := GetFeaturedCollectionParams.mk
              (or_default 1 (GetFeaturedCollectionParams.Page (pointee w)))
              (or_default 5 (GetFeaturedCollectionParams.PerPage (pointee w))) in
  let url := fun path : string =>
               BaseURL c +:+ Version c +:+ path +:+ "?"
                 +:+ Values_Encode (structToURLValues p') in
  let path := fun own : bool =>
                if own then "/collections" else "/collections/featured" in
  GetFeaturedCollections c ctx w = getCollections c ctx false w /\
  GetUserCollections c ctx w = getCollections c ctx true w /\
  forall own : bool,
    let out := getCollections c ctx own w in
    built_urls (trace (snd out)) = built_urls (trace w) ++ [url (path own)] /\
    pointee (snd out) = p' /\
    sent_requests (trace (snd out))
    = sent_requests (trace w) ++ requests_for c ctx true [url (path own)] /\
    fst out = match url_Parse_error (url (path own)) with
              | Some e => inl e
              | None => classify GetCollectionsResponse
                          (Do (HTTPClient c) (request_for c ctx true (url (path own))))
              end.
Proof.
  intros p' url path. split; [done|]. split; [done|].
  intros own out. subst out. rewrite getCollections_eq. cbn zeta.
  rewrite dispatched_built_urls, dispatched_pointee, dispatched_sent_requests,
    dispatched_result.
  by destruct own.
Qed.

(** C8, as the code has it: a binding that takes a parameter record
    builds BaseURL Version "/" path "?" query, where query encodes the
    record after defaulting; video search and popular videos leave the
    version out (BaseURL "/videos/search" "?" query and BaseURL
    "videos/popular" "?" query); the two bindings that take only an id
    build BaseURL Version "/photos/" id and BaseURL "/videos/videos/" id,
    with no question mark and no query. *)
Theorem target_urls (c : Client) (ctx : context_Context) :
  (forall p, GetPhotosParams.Query p <> EmptyString ->
     let out := run (GetPhotos c ctx) p in
     built_urls (trace (snd out))
     = [BaseURL c +:+ Version c +:+ "/" +:+ "search" +:+ "?"
          +:+ Values_Encode (structToURLValues (pointee (snd out)))]) /\
  (forall p,
     let out := run (GetCurated c ctx) p in
     built_urls (trace (snd out))
     = [BaseURL c +:+ Version c +:+ "/" +:+ "curated" +:+ "?"
          +:+ Values_Encode (structToURLValues (pointee (snd out)))]) /\
  (forall p,
     let out := run (GetFeaturedCollections c ctx) p in
     built_urls (trace (snd out))
     = [BaseURL c +:+ Version c +:+ "/" +:+ "collections/featured" +:+ "?"
          +:+ Values_Encode (structToURLValues (pointee (snd out)))]) /\
  (forall p,
     let out := run (GetUserCollections c ctx) p in
     built_urls (trace (snd out))
     = [BaseURL c +:+ Version c +:+ "/" +:+ "collections" +:+ "?"
          +:+ Values_Encode (structToURLValues (pointee (snd out)))]) /\
  (forall id p,
     let out := run (GetCollection c ctx id) p in
     built_urls (trace (snd out))
     = [BaseURL c +:+ Version c +:+ "/" +:+ ("collections/" +:+ id) +:+ "?"
          +:+ Values_Encode (structToURLValues (pointee (snd out)))]) /\
  (forall p, GetVideosParams.Query p <> EmptyString ->
     let out := run (GetVideos c ctx) p in
     built_urls (trace (snd out))
     = [BaseURL c +:+ "/videos/search" +:+ "?"
          +:+ Values_Encode (structToURLValues (pointee (snd out)))]) /\
  (forall p,
     let out := run (GetPopularVideos c ctx) p in
     built_urls (trace (snd out))
     = [BaseURL c +:+ "videos/popular" +:+ "?"
          +:+ Values_Encode (structToURLValues (pointee (snd out)))]) /\
  (forall id u,
     built_urls (trace (snd (run (GetPhoto c ctx id) u)))
     = [BaseURL c +:+ Version c +:+ "/" +:+ "photos/" +:+ id]) /\
  (forall id u,
     built_urls (trace (snd (run (GetVideo c ctx id) u)))
     = [BaseURL c +:+ "/videos/videos/" +:+ id]).
Proof.
  unfold run, GetFeaturedCollections, GetUserCollections.
  split; [|split; [|split; [|split; [|split; [|split; [|split; [|split]]]]]]].
  - intros p Hq. rewrite GetPhotos_eq. cbn [pointee trace].
    destruct (String.eqb_spec (GetPhotosParams.Query p) ""); [done|].
    cbn zeta. by rewrite dispatched_built_urls, dispatched_pointee.
  - intros p. rewrite GetCurated_eq. cbn zeta.
    by rewrite dispatched_built_urls, dispatched_pointee.
  - intros p. rewrite getCollections_eq. cbn zeta.
    by rewrite dispatched_built_urls, dispatched_pointee.
  - intros p. rewrite getCollections_eq. cbn zeta.
    by rewrite dispatched_built_urls, dispatched_pointee.
  - intros id p. rewrite GetCollection_eq. cbn zeta.
    rewrite dispatched_built_urls, dispatched_pointee.
    cbn [pointee trace built_urls flat_map app]. by rewrite ?append_assoc.
  - intros p Hq. rewrite GetVideos_eq. cbn [pointee trace].
    destruct (String.eqb_spec (GetVideosParams.Query p) ""); [done|].
    cbn zeta. by rewrite dispatched_built_urls, dispatched_pointee.
  - intros p. rewrite GetPopularVideos_eq. cbn zeta.
    rewrite dispatched_built_urls, dispatched_pointee.
    cbn [pointee trace built_urls flat_map app]. by rewrite ?append_assoc.
  - intros id u. rewrite GetPhoto_eq. by rewrite dispatched_built_urls.
  - intros id u. rewrite GetVideo_eq. by rewrite dispatched_built_urls.
Qed.


(** ** The claims on sendRequest *)

Lemma sendRequest_result {P : Type} (c : Client) (ctx : context_Context)
      (req : Request) (T : ResponseType) (w : World P) :
  fst (sendRequest c ctx req T w) = classify T (Do (HTTPClient c) req).
Proof. by rewrite sendRequest_eq. Qed.

Lemma classify_api_error (T : ResponseType) (res : Response) (body : string) :
  StatusCode res < 200 \/ StatusCode res >= 400 ->
  io_ReadAll (Body res) = inr body ->
  classify T (inr res)
  = inl (errorString ("Unknown API error: " +:+ FormatInt (StatusCode res)
                        +:+ " " +:+ body)).
Proof.
  intros Hst Hbody. unfold classify. rewrite Hbody.
  destruct (StatusCode res <? 200) eqn:Hlo; [done|].
  destruct (StatusCode res >=? 400) eqn:Hhi; [done|]. lia.
Qed.

Lemma dispatched_fails_with {P : Type} (c : Client) (ctx : context_Context)
      (ct : bool) (url : string) (T : ResponseType) (w : World P)
      (res : Response) (body : string) :
  (forall req, Do (HTTPClient c) req = inr res) ->
  StatusCode res < 200 \/ StatusCode res >= 400 ->
  io_ReadAll (Body res) = inr body ->
  sent_requests (trace w) = [] ->
  fails_with (dispatched c ctx ct url T w)
    ("Unknown API error: " +:+ FormatInt (StatusCode res) +:+ " " +:+ body).
Proof.
  intros Hdo Hst Hbody Hw. unfold fails_with.
  rewrite dispatched_result, dispatched_sent_requests, Hw.
  unfold requests_for. cbn [flat_map app].
  destruct (url_Parse_error url) as [e|].
  - exists e. split; [done|]. intros Hsent. by exfalso.
  - rewrite Hdo, (classify_api_error T res body) by done. eauto.
Qed.


(** C4, as the code has it: sendRequest treats a status below 200 or at
    least 400 as an error, carrying the status and the body text when the
    body is read to its end, and returns no value then.  A status from 200
    to 399 is not an error: the body goes to the JSON decoder, so a 3xx
    answer whose body decodes yields the decoded value. *)
Theorem status_classification {P : Type} (c : Client) (ctx : context_Context)
        (req : Request) (T : ResponseType) (w : World P) (res : Response) :
  Do (HTTPClient c) req = inr res ->
  (StatusCode res < 200 \/ StatusCode res >= 400 ->
   (forall body, io_ReadAll (Body res) = inr body ->
      fst (sendRequest c ctx req T w)
      = inl (errorString ("Unknown API error: " +:+ FormatInt (StatusCode res)
                            +:+ " " +:+ body))) /\
   (forall e, io_ReadAll (Body res) = inl e ->
      fst (sendRequest c ctx req T w) = inl e)) /\
  (200 <= StatusCode res < 400 ->
   fst (sendRequest c ctx req T w) = json_Decode T (Body res)) /\
  (300 <= StatusCode res < 400 ->
   forall v, json_Decode T (Body res) = inr v ->
             fst (sendRequest c ctx req T w) = inr v).
Proof.
  intros Hdo. rewrite sendRequest_result, Hdo.
  assert (Hok : 200 <= StatusCode res < 400 ->
                classify T (inr res) = json_Decode T (Body res)).
  { intros [Hlo Hhi]. unfold classify.
    destruct (StatusCode res <? 200) eqn:E1; [lia|].
    destruct (StatusCode res >=? 400) eqn:E2; [lia|done]. }
  split; [|split].
  - intros Hst. split.
    + intros body Hbody. by apply classify_api_error.
    + intros e He. unfold classify. rewrite He.
      by destruct ((StatusCode res <? 200) || (StatusCode res >=? 400)) eqn:E;
        [|lia].
  - exact Hok.
  - intros Hst v Hv. rewrite Hok by lia. done.
Qed.

(** ** Further properties of the calls *)

(** A call either stops at the empty query, with no event, or builds one
    URL and goes through the common tail. *)
Lemma perform_cases (c : Client) (ctx : context_Context) (k : Call) :
  perform c ctx k = (inl (errorString "Query field cannot be empty."), []) \/
  exists (url : string) (ct : bool),
    perform c ctx k =
    match url_Parse_error url with
    | Some e => (inl e, [NewRequest_call "GET" url])
    | None =>
        (classify (Call_type k) (Do (HTTPClient c) (request_for c ctx ct url)),
         [NewRequest_call "GET" url; Do_call (request_for c ctx ct url)])
    end.
Proof.
  assert (Htail : forall P ct url T (p : P),
             observe (dispatched c ctx ct url T (mkWorld p [])) =
             match url_Parse_error url with
             | Some e => (inl e, [NewRequest_call "GET" url])
             | None =>
                 (classify T (Do (HTTPClient c) (request_for c ctx ct url)),
                  [NewRequest_call "GET" url; Do_call (request_for c ctx ct url)])
             end).
  { intros P ct url T p. unfold observe, dispatched.
    by destruct (url_Parse_error url). }
  destruct k as [p|p|id|p|p|p id|id|p|p]; unfold perform, run,
    GetFeaturedCollections, GetUserCollections.
  - rewrite GetPhotos_eq. cbn [pointee trace].
    destruct (String.eqb _ _); [by left|]. right. cbn zeta. rewrite Htail. eauto.
  - rewrite GetCurated_eq. right. cbn zeta. rewrite Htail. eauto.
  - rewrite GetPhoto_eq. right. rewrite Htail. eauto.
  - rewrite getCollections_eq. right. cbn zeta. rewrite Htail. eauto.
  - rewrite getCollections_eq. right. cbn zeta. rewrite Htail. eauto.
  - rewrite GetCollection_eq. right. cbn zeta. rewrite Htail. eauto.
  - rewrite GetVideo_eq. right. rewrite Htail. eauto.
  - rewrite GetPopularVideos_eq. right. cbn zeta. rewrite Htail. eauto.
  - rewrite GetVideos_eq. cbn [pointee trace].
    destruct (String.eqb _ _); [by left|]. right. cbn zeta. rewrite Htail. eauto.
Qed.

(** X1: when the transport fails on the request a call sends, the call
    returns the transport's error as it is, and no response. *)
Theorem transport_error_returned (c : Client) (ctx : context_Context) (k : Call)
        (req : Request) (e : error) :
  sent_requests (snd (perform c ctx k)) = [req] ->
  Do (HTTPClient c) req = inl e ->
  fst (perform c ctx k) = inl e.
Proof.
  intros Hsent Hdo.
  destruct (perform_cases c ctx k) as [Hk|(url & ct & Hk)]; rewrite Hk in *.
  - discriminate.
  - destruct (url_Parse_error url); [discriminate|].
    cbn in Hsent. injection Hsent as <-. cbn [fst]. by rewrite Hdo.
Qed.

(** X2: when the transport answers the request a call sends with a status
    from 200 to 399, the call returns what the JSON decoder makes of the
    body: the decoded value, or the decoder's error as it is. *)
Theorem success_returns_decoded (c : Client) (ctx : context_Context) (k : Call)
        (req : Request) (res : Response) :
  sent_requests (snd (perform c ctx k)) = [req] ->
  Do (HTTPClient c) req = inr res ->
  200 <= StatusCode res < 400 ->
  fst (perform c ctx k) = json_Decode (Call_type k) (Body res).
Proof.
  intros Hsent Hdo [Hlo Hhi].
  destruct (perform_cases c ctx k) as [Hk|(url & ct & Hk)]; rewrite Hk in *.
  - discriminate.
  - destruct (url_Parse_error url); [discriminate|].
    cbn in Hsent. injection Hsent as <-. cbn [fst]. rewrite Hdo. unfold classify.
    destruct (StatusCode res <? 200) eqn:E1; [lia|].
    destruct (StatusCode res >=? 400) eqn:E2; [lia|done].
Qed.

(** X3: when net/url rejects the URL a call builds, the call returns that
    error and hands nothing to the transport. *)
Theorem bad_url_nothing_sent (c : Client) (ctx : context_Context) (k : Call)
        (url : string) (e : error) :
  built_urls (snd (perform c ctx k)) = [url] ->
  url_Parse_error url = Some e ->
  fst (perform c ctx k) = inl e /\
  sent_requests (snd (perform c ctx k)) = [].
Proof.
  intros Hbuilt Hurl.
  destruct (perform_cases c ctx k) as [Hk|(url' & ct & Hk)]; rewrite Hk in *.
  - discriminate.
  - assert (url' = url) as ->.
    { destruct (url_Parse_error url'); cbn in Hbuilt; congruence. }
    by rewrite Hurl.
Qed.


Lemma or_default_nonzero (d n : Z) : d <> 0 -> or_default d n <> 0.
Proof. unfold or_default. by destruct (Z.eqb_spec n 0). Qed.

Lemma or_default_idem (d n : Z) :
  d <> 0 -> or_default d (or_default d n) = or_default d n.
Proof.
  intros Hd. unfold or_default at 1.
  by destruct (Z.eqb_spec (or_default d n) 0) as [H0%or_default_nonzero|].
Qed.

Lemma int_field_encoded (p : Params) (name tag : string) (n : Z) :
  In (int name tag n) (Fields p) -> n <> 0 ->
  In (QueryEscape tag +:+ "=" +:+ FormatInt n) (encode_pairs (structToURLValues p)).
Proof.
  intros Hf Hn. rewrite <- (QueryEscape_FormatInt n) at 1.
  apply (written_field_encoded p (int name tag n) Hf).
  rewrite (Params_written p _ Hf). simpl. by apply negb_true_iff, Z.eqb_neq.
Qed.

Ltac pagination_encoded P :=
  unfold encodes_pagination; eexists;
  rewrite dispatched_built_urls; cbn [trace built_urls flat_map app];
  rewrite ?append_assoc;
  (split; [reflexivity|]);
  split;
  [ eapply (int_field_encoded (P _) "Page" "page");
    [simpl; eauto 10|by apply or_default_nonzero]
  | eapply (int_field_encoded (P _) "PerPage" "per_page");
    [simpl; eauto 10|by apply or_default_nonzero] ].

(** X6: every list-shape binding that builds a URL puts both page and
    per_page into the query, with the value the record holds after
    defaulting: a non-zero Page or PerPage, negative ones included, goes
    out unchanged, and only zero is replaced. *)
Theorem pagination_always_encoded (c : Client) (ctx : context_Context) :
  (forall p, GetPhotosParams.Query p <> EmptyString ->
     encodes_pagination (trace (snd (run (GetPhotos c ctx) p)))
       (BaseURL c +:+ Version c +:+ "/search?")
       (or_default 1 (GetPhotosParams.Page p))
       (or_default 5 (GetPhotosParams.PerPage p))) /\
  (forall p,
     encodes_pagination (trace (snd (run (GetCurated c ctx) p)))
       (BaseURL c +:+ Version c +:+ "/curated?")
       (or_default 1 (GetCuratedPhotoParams.Page p))
       (or_default 5 (GetCuratedPhotoParams.PerPage p))) /\
  (forall p, GetVideosParams.Query p <> EmptyString ->
     encodes_pagination (trace (snd (run (GetVideos c ctx) p)))
       (BaseURL c +:+ "/videos/search?")
       (or_default 1 (GetVideosParams.Page p))
       (or_default 5 (GetVideosParams.PerPage p))) /\
  (forall p,
     encodes_pagination (trace (snd (run (GetPopularVideos c ctx) p)))
       (BaseURL c +:+ "videos/popular?")
       (or_default 1 (GetPopularVideosParams.Page p))
       (or_default 2 (GetPopularVideosParams.PerPage p))) /\
  (forall own p,
     encodes_pagination (trace (snd (run (getCollections c ctx own) p)))
       (BaseURL c +:+ Version c
          +:+ (if own then "/collections?" else "/collections/featured?"))
       (or_default 1 (GetFeaturedCollectionParams.Page p))
       (or_default 5 (GetFeaturedCollectionParams.PerPage p))) /\
  (forall id p,
     encodes_pagination (trace (snd (run (GetCollection c ctx id) p)))
       (BaseURL c +:+ Version c +:+ "/collections/" +:+ id +:+ "?")
       (or_default 1 (GetCollectionMediaParams.Page p))
       (or_default 5 (GetCollectionMediaParams.PerPage p))).
Proof.
  unfold run.
  split; [|split; [|split; [|split; [|split]]]].
  - intros p Hq. rewrite GetPhotos_eq. cbn [pointee trace].
    destruct (String.eqb_spec (GetPhotosParams.Query p) ""); [done|].
    pagination_encoded PhotosParams.
  - intros p. rewrite GetCurated_eq. cbn [pointee trace].
    pagination_encoded CuratedPhotoParams.
  - intros p Hq. rewrite GetVideos_eq. cbn [pointee trace].
    destruct (String.eqb_spec (GetVideosParams.Query p) ""); [done|].
    pagination_encoded VideosParams.
  - intros p. rewrite GetPopularVideos_eq. cbn [pointee trace].
    pagination_encoded PopularVideosParams.
  - intros own p. rewrite getCollections_eq. cbn [pointee trace].
    pagination_encoded FeaturedCollectionParams.
  - intros id p. rewrite GetCollection_eq. cbn [pointee trace].
    pagination_encoded CollectionMediaParams.
Qed.

(** The record and the URLs a list-shape binding leaves behind. *)

Lemma GetPhotos_pointee (c : Client) (ctx : context_Context) (w : World GetPhotosParams.t) :
  pointee (snd (GetPhotos c ctx w))
  = GetPhotosParams.mk (GetPhotosParams.Query (pointee w)) (GetPhotosParams.Orientation (pointee w)) (GetPhotosParams.Size (pointee w)) (GetPhotosParams.Color (pointee w)) (GetPhotosParams.Locale (pointee w))
      (or_default 1 (GetPhotosParams.Page (pointee w)))
      (or_default 5 (GetPhotosParams.PerPage (pointee w))).
Proof.
  rewrite GetPhotos_eq. cbn zeta.
  destruct (String.eqb _ _); [done|]. by rewrite dispatched_pointee.
Qed.

Lemma GetPhotos_built_urls (c : Client) (ctx : context_Context) (w : World GetPhotosParams.t) :
  built_urls (trace (snd (GetPhotos c ctx w)))
  = if String.eqb (GetPhotosParams.Query (pointee w)) ""
    then built_urls (trace w)
    else built_urls (trace w) ++
         [BaseURL c +:+ Version c +:+ "/search?"
            +:+ Values_Encode (structToURLValues (pointee (snd (GetPhotos c ctx w))))].
Proof.
  rewrite GetPhotos_pointee, GetPhotos_eq. cbn zeta.
  destruct (String.eqb _ _); [done|]. by rewrite dispatched_built_urls.
Qed.

Lemma GetCurated_pointee (c : Client) (ctx : context_Context) (w : World GetCuratedPhotoParams.t) :
  pointee (snd (GetCurated c ctx w))
  = GetCuratedPhotoParams.mk 
      (or_default 1 (GetCuratedPhotoParams.Page (pointee w)))
      (or_default 5 (GetCuratedPhotoParams.PerPage (pointee w))).
Proof.
  rewrite GetCurated_eq. cbn zeta.
  by rewrite dispatched_pointee.
Qed.

Lemma GetCurated_built_urls (c : Client) (ctx : context_Context) (w : World GetCuratedPhotoParams.t) :
  built_urls (trace (snd (GetCurated c ctx w)))
  = built_urls (trace w) ++
    [(BaseURL c +:+ Version c +:+ "/curated?")
       +:+ Values_Encode (structToURLValues (pointee (snd (GetCurated c ctx w))))].
Proof.
  rewrite GetCurated_pointee, GetCurated_eq. cbn zeta.
  rewrite dispatched_built_urls. by rewrite ?append_assoc.
Qed.

Lemma getCollections_pointee (c : Client) (ctx : context_Context) (own : bool) (w : World GetFeaturedCollectionParams.t) :
  pointee (snd (getCollections c ctx own w))
  = GetFeaturedCollectionParams.mk 
      (or_default 1 (GetFeaturedCollectionParams.Page (pointee w)))
      (or_default 5 (GetFeaturedCollectionParams.PerPage (pointee w))).
Proof.
  rewrite getCollections_eq. cbn zeta.
  by rewrite dispatched_pointee.
Qed.

Lemma getCollections_built_urls (c : Client) (ctx : context_Context) (own : bool) (w : World GetFeaturedCollectionParams.t) :
  built_urls (trace (snd (getCollections c ctx own w)))
  = built_urls (trace w) ++
    [(BaseURL c +:+ Version c +:+ (if own then "/collections?" else "/collections/featured?"))
       +:+ Values_Encode (structToURLValues (pointee (snd (getCollections c ctx own w))))].
Proof.
  rewrite getCollections_pointee, getCollections_eq. cbn zeta.
  rewrite dispatched_built_urls. by rewrite ?append_assoc.
Qed.

Lemma GetCollection_pointee (c : Client) (ctx : context_Context) (id : string) (w : World GetCollectionMediaParams.t) :
  pointee (snd (GetCollection c ctx id w))
  = GetCollectionMediaParams.mk (GetCollectionMediaParams.Type_ (pointee w)) (GetCollectionMediaParams.Sort (pointee w))
      (or_default 1 (GetCollectionMediaParams.Page (pointee w)))
      (or_default 5 (GetCollectionMediaParams.PerPage (pointee w))).
Proof.
  rewrite GetCollection_eq. cbn zeta.
  by rewrite dispatched_pointee.
Qed.

Lemma GetCollection_built_urls (c : Client) (ctx : context_Context) (id : string) (w : World GetCollectionMediaParams.t) :
  built_urls (trace (snd (GetCollection c ctx id w)))
  = built_urls (trace w) ++
    [(BaseURL c +:+ Version c +:+ "/collections/" +:+ id +:+ "?")
       +:+ Values_Encode (structToURLValues (pointee (snd (GetCollection c ctx id w))))].
Proof.
  rewrite GetCollection_pointee, GetCollection_eq. cbn zeta.
  rewrite dispatched_built_urls. by rewrite ?append_assoc.
Qed.

Lemma GetPopularVideos_pointee (c : Client) (ctx : context_Context) (w : World GetPopularVideosParams.t) :
  pointee (snd (GetPopularVideos c ctx w))
  = GetPopularVideosParams.mk (GetPopularVideosParams.MinWidth (pointee w)) (GetPopularVideosParams.MinHeight (pointee w)) (GetPopularVideosParams.MinDuration (pointee w)) (GetPopularVideosParams.MaxDuration (pointee w))
      (or_default 1 (GetPopularVideosParams.Page (pointee w)))
      (or_default 2 (GetPopularVideosParams.PerPage (pointee w))).
Proof.
  rewrite GetPopularVideos_eq. cbn zeta.
  by rewrite dispatched_pointee.
Qed.

Lemma GetPopularVideos_built_urls (c : Client) (ctx : context_Context) (w : World GetPopularVideosParams.t) :
  built_urls (trace (snd (GetPopularVideos c ctx w)))
  = built_urls (trace w) ++
    [(BaseURL c +:+ "videos/popular?")
       +:+ Values_Encode (structToURLValues (pointee (snd (GetPopularVideos c ctx w))))].
Proof.
  rewrite GetPopularVideos_pointee, GetPopularVideos_eq. cbn zeta.
  rewrite dispatched_built_urls. by rewrite ?append_assoc.
Qed.

Lemma GetVideos_pointee (c : Client) (ctx : context_Context) (w : World GetVideosParams.t) :
  pointee (snd (GetVideos c ctx w))
  = GetVideosParams.mk (GetVideosParams.Query (pointee w)) (GetVideosParams.Orientation (pointee w)) (GetVideosParams.Size (pointee w)) (GetVideosParams.Locale (pointee w))
      (or_default 1 (GetVideosParams.Page (pointee w)))
      (or_default 5 (GetVideosParams.PerPage (pointee w))).
Proof.
  rewrite GetVideos_eq. cbn zeta.
  destruct (String.eqb _ _); [done|]. by rewrite dispatched_pointee.
Qed.

Lemma GetVideos_built_urls (c : Client) (ctx : context_Context) (w : World GetVideosParams.t) :
  built_urls (trace (snd (GetVideos c ctx w)))
  = if String.eqb (GetVideosParams.Query (pointee w)) ""
    then built_urls (trace w)
    else built_urls (trace w) ++
         [BaseURL c +:+ "/videos/search?"
            +:+ Values_Encode (structToURLValues (pointee (snd (GetVideos c ctx w))))].
Proof.
  rewrite GetVideos_pointee, GetVideos_eq. cbn zeta.
  destruct (String.eqb _ _); [done|]. by rewrite dispatched_built_urls.
Qed.

Ltac second_call Hp Hu :=
  intros; repeat match goal with x := _ |- _ => subst x end; unfold run;
  match goal with
  | |- ?a = ?b /\ _ =>
      assert (a = b) as Hsame;
      [ rewrite !Hp; cbn -[or_default]; by rewrite !or_default_idem
      | split; [exact Hsame|];
        rewrite (Hu _ _), Hsame; rewrite !Hu; rewrite ?Hp; cbn -[or_default];
        done ]
  end.

(** X5: a list-shape binding called again on the record its first call
    left behind changes the record no further and builds the same URL: the
    in-place defaulting settles after one call. *)
Theorem second_call_same_url (c : Client) (ctx : context_Context) :
  (forall p,
      let out1 := run (GetPhotos c ctx) p in
      let out2 := run (GetPhotos c ctx) (pointee (snd out1)) in
      pointee (snd out2) = pointee (snd out1) /\
      built_urls (trace (snd out2)) = built_urls (trace (snd out1))) /\
  (forall p,
      let out1 := run (GetCurated c ctx) p in
      let out2 := run (GetCurated c ctx) (pointee (snd out1)) in
      pointee (snd out2) = pointee (snd out1) /\
      built_urls (trace (snd out2)) = built_urls (trace (snd out1))) /\
  (forall own p,
      let out1 := run (getCollections c ctx own) p in
      let out2 := run (getCollections c ctx own) (pointee (snd out1)) in
      pointee (snd out2) = pointee (snd out1) /\
      built_urls (trace (snd out2)) = built_urls (trace (snd out1))) /\
  (forall id p,
      let out1 := run (GetCollection c ctx id) p in
      let out2 := run (GetCollection c ctx id) (pointee (snd out1)) in
      pointee (snd out2) = pointee (snd out1) /\
      built_urls (trace (snd out2)) = built_urls (trace (snd out1))) /\
  (forall p,
      let out1 := run (GetPopularVideos c ctx) p in
      let out2 := run (GetPopularVideos c ctx) (pointee (snd out1)) in
      pointee (snd out2) = pointee (snd out1) /\
      built_urls (trace (snd out2)) = built_urls (trace (snd out1))) /\
  (forall p,
      let out1 := run (GetVideos c ctx) p in
      let out2 := run (GetVideos c ctx) (pointee (snd out1)) in
      pointee (snd out2) = pointee (snd out1) /\
      built_urls (trace (snd out2)) = built_urls (trace (snd out1))).
Proof.
  split; [|split; [|split; [|split; [|split]]]].
  - second_call GetPhotos_pointee GetPhotos_built_urls.
  - second_call GetCurated_pointee GetCurated_built_urls.
  - second_call getCollections_pointee getCollections_built_urls.
  - second_call GetCollection_pointee GetCollection_built_urls.
  - second_call GetPopularVideos_pointee GetPopularVideos_built_urls.
  - second_call GetVideos_pointee GetVideos_built_urls.
Qed.

Lemma Encode_page_per_page (key1 key2 : string) (n m : Z) :
  n <> 0 -> m <> 0 ->
  String.concat "&" (opt_int key1 n ++ opt_int key2 m)
  = key1 +:+ "=" +:+ FormatInt n +:+ "&" +:+ key2 +:+ "=" +:+ FormatInt m.
Proof.
  intros Hn Hm. unfold opt_int.
  apply Z.eqb_neq in Hn, Hm. rewrite Hn, Hm. cbn [app String.concat].
  by rewrite !append_assoc.
Qed.

(** X9: the URL of the curated-photos and the collection-listing calls in
    full: BaseURL, Version, the path, and the query
    page=<Page or 1>&per_page=<PerPage or 5>, nothing else. *)
Theorem curated_and_collections_url (c : Client) (ctx : context_Context) :
  (forall p,
      built_urls (trace (snd (run (GetCurated c ctx) p)))
      = [BaseURL c +:+ Version c +:+ "/curated?"
           +:+ "page=" +:+ FormatInt (or_default 1 (GetCuratedPhotoParams.Page p))
           +:+ "&per_page="
           +:+ FormatInt (or_default 5 (GetCuratedPhotoParams.PerPage p))]) /\
  (forall p,
      built_urls (trace (snd (run (GetFeaturedCollections c ctx) p)))
      = [BaseURL c +:+ Version c +:+ "/collections/featured?"
           +:+ "page=" +:+ FormatInt (or_default 1 (GetFeaturedCollectionParams.Page p))
           +:+ "&per_page="
           +:+ FormatInt (or_default 5 (GetFeaturedCollectionParams.PerPage p))]) /\
  (forall p,
      built_urls (trace (snd (run (GetUserCollections c ctx) p)))
      = [BaseURL c +:+ Version c +:+ "/collections?"
           +:+ "page=" +:+ FormatInt (or_default 1 (GetFeaturedCollectionParams.Page p))
           +:+ "&per_page="
           +:+ FormatInt (or_default 5 (GetFeaturedCollectionParams.PerPage p))]).
Proof.
  unfold run, GetFeaturedCollections, GetUserCollections.
  split; [|split]; intros p.
  - rewrite GetCurated_built_urls, GetCurated_pointee, Encode_GetCuratedPhotoParams.
    cbn [pointee trace built_urls flat_map app GetCuratedPhotoParams.Page
           GetCuratedPhotoParams.PerPage].
    rewrite Encode_page_per_page by (by apply or_default_nonzero).
    by rewrite !append_assoc.
  - rewrite getCollections_built_urls, getCollections_pointee,
      Encode_GetFeaturedCollectionParams.
    cbn [pointee trace built_urls flat_map app GetFeaturedCollectionParams.Page
           GetFeaturedCollectionParams.PerPage].
    rewrite Encode_page_per_page by (by apply or_default_nonzero).
    by rewrite !append_assoc.
  - rewrite getCollections_built_urls, getCollections_pointee,
      Encode_GetFeaturedCollectionParams.
    cbn [pointee trace built_urls flat_map app GetFeaturedCollectionParams.Page
           GetFeaturedCollectionParams.PerPage].
    rewrite Encode_page_per_page by (by apply or_default_nonzero).
    by rewrite !append_assoc.
Qed.

(** X10: the query of a search URL, parsed again with url.ParseQuery,
    gives the search text exactly as the caller wrote it, whatever bytes it
    holds, under the key query, the defaulted page and per_page, and no key
    besides the record's query names: text such as "&page=9" in a field
    cannot add or replace a parameter. *)
Theorem search_query_parses_back (c : Client) (ctx : context_Context) :
  (forall p, GetPhotosParams.Query p <> EmptyString ->
     exists (query : string) (v : Values),
       built_urls (trace (snd (run (GetPhotos c ctx) p)))
       = [BaseURL c +:+ Version c +:+ "/search?" +:+ query] /\
       ParseQuery query = (v, None) /\
       v !! "query" = Some [GetPhotosParams.Query p] /\
       v !! "page" = Some [FormatInt (or_default 1 (GetPhotosParams.Page p))] /\
       v !! "per_page" = Some [FormatInt (or_default 5 (GetPhotosParams.PerPage p))] /\
       forall k, is_Some (v !! k) ->
                 k ∈ ["query"; "orientation"; "size"; "color"; "locale";
                      "page"; "per_page"]) /\
  (forall p, GetVideosParams.Query p <> EmptyString ->
     exists (query : string) (v : Values),
       built_urls (trace (snd (run (GetVideos c ctx) p)))
       = [BaseURL c +:+ "/videos/search?" +:+ query] /\
       ParseQuery query = (v, None) /\
       v !! "query" = Some [GetVideosParams.Query p] /\
       v !! "page" = Some [FormatInt (or_default 1 (GetVideosParams.Page p))] /\
       v !! "per_page" = Some [FormatInt (or_default 5 (GetVideosParams.PerPage p))] /\
       forall k, is_Some (v !! k) ->
                 k ∈ ["query"; "orientation"; "size"; "locale"; "page"; "per_page"]).
Proof.
  unfold run. split; intros p Hq.
  - rewrite GetPhotos_built_urls, GetPhotos_pointee. cbn [pointee trace].
    destruct (String.eqb_spec (GetPhotosParams.Query p) ""); [done|].
    set (p' := GetPhotosParams.mk _ _ _ _ _ _ _).
    exists (Values_Encode (structToURLValues p')), (structToURLValues p').
    split; [done|].
    split; [apply ParseQuery_Values_Encode, structToURLValues_single_valued|].
    change (structToURLValues p') with (structToURLValues (PhotosParams p')).
    split; [|split; [|split]].
    + by apply (Params_str_lookup _ "Query"); [left|].
    + apply (Params_int_lookup _ "Page"); [simpl; eauto 10|].
      by apply or_default_nonzero.
    + apply (Params_int_lookup _ "PerPage"); [simpl; eauto 10|].
      by apply or_default_nonzero.
    + intros k Hk. exact (structToURLValues_keys (PhotosParams p') k Hk).
  - rewrite GetVideos_built_urls, GetVideos_pointee. cbn [pointee trace].
    destruct (String.eqb_spec (GetVideosParams.Query p) ""); [done|].
    set (p' := GetVideosParams.mk _ _ _ _ _ _).
    exists (Values_Encode (structToURLValues p')), (structToURLValues p').
    split; [done|].
    split; [apply ParseQuery_Values_Encode, structToURLValues_single_valued|].
    change (structToURLValues p') with (structToURLValues (VideosParams p')).
    split; [|split; [|split]].
    + by apply (Params_str_lookup _ "Query"); [left|].
    + apply (Params_int_lookup _ "Page"); [simpl; eauto 10|].
      by apply or_default_nonzero.
    + apply (Params_int_lookup _ "PerPage"); [simpl; eauto 10|].
      by apply or_default_nonzero.
    + intros k Hk. exact (structToURLValues_keys (VideosParams p') k Hk).
Qed.


End Pexels_facts.


(** * A mock transport and concrete calls *)

(** A canned world: contexts are trivial, every URL parses, and the
    decoder accepts the empty JSON object (leaving the destination at its
    zero value, here [tt]) and rejects everything else. *)
Definition mock_Decode (T : ResponseType) (body : ReadCloser) : error + unit :=
  match io_ReadAll body with
  | inl e => inl e
  | inr text =>
      if String.eqb text "{}" then inr tt
      else inl (foreignError "json" "invalid character")
  end.

Global Instance mock_env : Env := {|
  context_Context := unit;
  context_Background := tt;
  value_of := fun _ => unit;
  json_Decode := mock_Decode;
  url_Parse_error := fun _ => None
|}.

(** The client of NewClient over a transport that answers every request
    with [res]. *)
Definition mock_client (res : Response) : Client :=
  NewClient (mkHTTP (fun _ => inr res)) "secret".

Definition not_found : Response := mkResponse 404 (mkBody "Not found" None).

Definition broken_body : Response :=
  mkResponse 500 (mkBody "Internal" (Some (foreignError "io" "unexpected EOF"))).

Definition not_modified : Response := mkResponse 304 (mkBody "{}" None).

Definition nature_photos : GetPhotosParams.t :=
  GetPhotosParams.mk "nature" "landscape" "medium" "green" "en-US" 0 0.

Definition no_query_photos : GetPhotosParams.t :=
  GetPhotosParams.mk "" "" "" "" "" 0 0.

Definition curated_request (res : Response) : Request :=
  request_for (mock_client res) tt true "https://api.pexels.com/v1/curated?page=1".

Example GetPhotos_nature_url :
  built_urls (trace (snd (run (GetPhotos (mock_client not_found) tt) nature_photos)))
  = ["https://api.pexels.com/v1/search?color=green&locale=en-US&orientation=landscape&page=1&per_page=5&query=nature&size=medium"].
Proof. vm_compute. reflexivity. Qed.

(** Witness of C1. *)
Lemma empty_query_rejected_witness :
  let w := mkWorld no_query_photos [] in
  fst (GetPhotos (mock_client not_found) tt w)
  = inl (errorString "Query field cannot be empty.") /\
  trace (snd (GetPhotos (mock_client not_found) tt w)) = trace w.
Proof.
  exact (proj1 (empty_query_rejected (mock_client not_found) tt)
               (mkWorld no_query_photos []) eq_refl).
Defined.

(** Witness of C2. *)
Lemma pagination_defaults_encoded_witness :
  encodes_defaults
    (trace (snd (run (GetPhotos (mock_client not_found) tt) nature_photos)))
    (BaseURL (mock_client not_found) +:+ Version (mock_client not_found) +:+ "/search?")
    (GetPhotosParams.Page nature_photos) (GetPhotosParams.PerPage nature_photos) "5".
Proof.
  apply (proj1 (pagination_defaults_encoded (mock_client not_found) tt) nature_photos).
  discriminate.
Defined.



(** Witness of C4. *)
Lemma status_classification_witness :
  fst (sendRequest (mock_client not_modified) tt (curated_request not_modified)
         Photo (mkWorld tt []))
  = inr tt.
Proof.
  destruct (status_classification (mock_client not_modified) tt
              (curated_request not_modified) Photo (mkWorld tt []) not_modified eq_refl)
    as (_ & _ & H3xx).
  refine (H3xx _ tt eq_refl).
  split; [vm_compute; discriminate|reflexivity].
Defined.

(** C4 as stated fails: status 304 is outside 2xx, yet sendRequest returns
    the decoded value and no error. *)
Lemma sendRequest_3xx_counterexample :
  let out := sendRequest (mock_client not_modified) tt (curated_request not_modified)
               Photo (mkWorld tt []) in
  ~ (200 <= StatusCode not_modified < 300) /\
  fst out = inr tt /\
  ~ (exists e, fst out = inl e).
Proof.
  split; [intros [_ H]; vm_compute in H; discriminate H|].
  split; [reflexivity|]. intros [e He]. vm_compute in He. discriminate.
Qed.

(** Witness of C5. *)
Lemma structToURLValues_includes_iff_witness :
  structToURLValues (PhotosParams nature_photos) !! "query" = Some ["nature"] /\
  structToURLValues (PhotosParams nature_photos) !! "page" = None.
Proof.
  split.
  - apply (proj1 (structToURLValues_includes_iff (PhotosParams nature_photos)
                    (str "Query" "query" "nature") (or_introl eq_refl))).
    split; [discriminate|reflexivity].
  - apply (proj1 (proj2 (structToURLValues_includes_iff (PhotosParams nature_photos)
                           (int "Page" "page" 0)
                           (or_intror (or_intror (or_intror (or_intror
                              (or_intror (or_introl eq_refl))))))))).
    reflexivity.
Defined.

(** Witness of C6. *)
Lemma ParseQuery_Encode_structToURLValues_witness :
  let p := PhotosParams (GetPhotosParams.mk "sea & sky" "" "" "" "" 2 10) in
  let parsed := ParseQuery (Values_Encode (structToURLValues p)) in
  Values_Get (fst parsed) "query" = "sea & sky" /\
  Atoi (Values_Get (fst parsed) "per_page") = Some 10.
Proof.
  destruct (ParseQuery_Encode_structToURLValues
              (PhotosParams (GetPhotosParams.mk "sea & sky" "" "" "" "" 2 10)))
    as (_ & Hstr & Hint).
  split.
  - apply (Hstr "Query"); [by left|discriminate].
  - apply (Hint "PerPage"); [do 6 right; by left|discriminate|].
    split; vm_compute; discriminate.
Defined.

(** Witness of C8. *)
Lemma target_urls_witness :
  let out := run (GetPhotos (mock_client not_found) tt) nature_photos in
  built_urls (trace (snd out))
  = [BaseURL (mock_client not_found) +:+ Version (mock_client not_found)
       +:+ "/" +:+ "search" +:+ "?"
       +:+ Values_Encode (structToURLValues (pointee (snd out)))].
Proof.
  apply (proj1 (target_urls (mock_client not_found) tt) nature_photos).
  discriminate.
Defined.

(** C8 as stated fails for the photo by its id: the URL built is
    BaseURL Version "/photos/" id, which has no question mark, so it is
    not of the form BaseURL Version "/" path "?" query. *)
Lemma GetPhoto_url_counterexample :
  built_urls (trace (snd (run (GetPhoto (mock_client not_found) tt "2014422") tt)))
  = ["https://api.pexels.com/v1/photos/2014422"] /\
  ~ (exists path query : string,
        "https://api.pexels.com/v1/photos/2014422"
        = pexels_BaseURL +:+ pexels_Version +:+ "/" +:+ path +:+ "?" +:+ query).
Proof.
  split; [reflexivity|]. intros (path & query & Heq).
  assert (Contains "https://api.pexels.com/v1/photos/2014422" "?" = true) as H.
  { rewrite Heq. do 4 apply Contains_skip.
    by rewrite Contains_unfold, prefix_app. }
  vm_compute in H. discriminate.
Qed.

(** Witness of C10. *)
Lemma defaults_written_in_place_witness :
  let w := mkWorld no_query_photos [] in
  fst (GetPhotos (mock_client not_found) tt w)
  = inl (errorString "Query field cannot be empty.") /\
  GetPhotosParams.Page (pointee (snd (GetPhotos (mock_client not_found) tt w))) = 1 /\
  GetPhotosParams.PerPage (pointee (snd (GetPhotos (mock_client not_found) tt w))) = 5 /\
  pointee (snd (GetPhotos (mock_client not_found) tt w)) <> pointee w.
Proof.
  destruct (defaults_written_in_place (mock_client not_found) tt)
    as (_ & _ & _ & _ & _ & _ & Hphotos & _).
  exact (Hphotos (mkWorld no_query_photos []) eq_refl eq_refl eq_refl).
Defined.

(** ** Concrete calls for the further properties *)

(** A transport that cannot reach the server. *)
Definition offline_client : Client :=
  NewClient (mkHTTP (fun _ => inl (foreignError "net" "connection refused"))) "secret".

Definition ok_empty_object : Response := mkResponse 200 (mkBody "{}" None).

(** A world in which net/url rejects a target with the malformed escape
    [%zz]. *)
Definition strict_env : Env := {|
  context_Context := unit;
  context_Background := tt;
  value_of := fun _ => unit;
  json_Decode := mock_Decode;
  url_Parse_error := fun url =>
    if Contains url "%zz" then Some (foreignError "url" "invalid URL escape")
    else None
|}.

Definition strict_client : @Client strict_env :=
  @NewClient strict_env (@mkHTTP strict_env (fun _ => inr ok_empty_object)) "secret".

Definition negative_page_photos : GetPhotosParams.t :=
  GetPhotosParams.mk "nature" "" "" "" "" (-3) 0.

Definition injection_photos : GetPhotosParams.t :=
  GetPhotosParams.mk "cats&page=9" "" "" "" "" 0 0.

(** A struct with a repeated tag, a bool field and an untagged field. *)
Definition mixed_fields : list StructField :=
  [ str "First" "q" "one"; mkField "Flag" "flag" (BoolValue true);
    str "Hidden" "" "kept out"; str "Second" "q" "two" ].

Definition list_Struct : Struct (list StructField) := fun fs => fs.

(** Witness of X1. *)
Lemma transport_error_returned_witness :
  fst (perform offline_client tt (Call_GetPhoto "2014422"))
  = inl (foreignError "net" "connection refused").
Proof.
  exact (transport_error_returned offline_client tt (Call_GetPhoto "2014422")
           (request_for offline_client tt true "https://api.pexels.com/v1/photos/2014422")
           (foreignError "net" "connection refused") eq_refl eq_refl).
Defined.

(** Witness of X2. *)
Lemma success_returns_decoded_witness :
  fst (perform (mock_client ok_empty_object) tt (Call_GetPhoto "2014422"))
  = json_Decode Photo (Body ok_empty_object).
Proof.
  apply (success_returns_decoded (mock_client ok_empty_object) tt
           (Call_GetPhoto "2014422")
           (request_for (mock_client ok_empty_object) tt true
              "https://api.pexels.com/v1/photos/2014422")
           ok_empty_object eq_refl eq_refl).
  split; [vm_compute; discriminate|reflexivity].
Defined.

(** Witness of X3. *)
Lemma bad_url_nothing_sent_witness :
  fst (@perform strict_env strict_client tt (Call_GetPhoto "%zz"))
  = inl (foreignError "url" "invalid URL escape") /\
  @sent_requests strict_env
    (snd (@perform strict_env strict_client tt (Call_GetPhoto "%zz"))) = [].
Proof.
  exact (@bad_url_nothing_sent strict_env strict_client tt (Call_GetPhoto "%zz")
           "https://api.pexels.com/v1/photos/%zz"
           (foreignError "url" "invalid URL escape") eq_refl eq_refl).
Defined.

(** Witness of X6. *)
Lemma pagination_always_encoded_witness :
  encodes_pagination
    (trace (snd (run (GetPhotos (mock_client not_found) tt) negative_page_photos)))
    (BaseURL (mock_client not_found) +:+ Version (mock_client not_found) +:+ "/search?")
    (or_default 1 (GetPhotosParams.Page negative_page_photos))
    (or_default 5 (GetPhotosParams.PerPage negative_page_photos)).
Proof.
  apply (proj1 (pagination_always_encoded (mock_client not_found) tt)
               negative_page_photos).
  discriminate.
Defined.


(** Witness of X10. *)
Lemma search_query_parses_back_witness :
  exists (query : string) (v : Values),
    built_urls (trace (snd (run (GetPhotos (mock_client not_found) tt) injection_photos)))
    = [BaseURL (mock_client not_found) +:+ Version (mock_client not_found)
         +:+ "/search?" +:+ query] /\
    ParseQuery query = (v, None) /\
    v !! "query" = Some [GetPhotosParams.Query injection_photos] /\
    v !! "page" = Some [FormatInt (or_default 1 (GetPhotosParams.Page injection_photos))] /\
    v !! "per_page"
    = Some [FormatInt (or_default 5 (GetPhotosParams.PerPage injection_photos))] /\
    forall k, is_Some (v !! k) ->
              k ∈ ["query"; "orientation"; "size"; "color"; "locale"; "page"; "per_page"].
Proof.
  apply (proj1 (search_query_parses_back (mock_client not_found) tt) injection_photos).
  discriminate.
Defined.


(** Witness of X12. *)
Lemma encoded_query_bytes_witness :
  has_byte " " (Values_Encode (structToURLValues
                  (GetPhotosParams.mk "sea & sky" "" "" "" "" 2 10))) = false.
Proof.
  exact (proj2 (encoded_query_bytes (GetPhotosParams.mk "sea & sky" "" "" "" "" 2 10))
               " "%char eq_refl).
Defined.
